(** * Btc-mempool-watcher: the expiring cache and the watch-and-dump poller

    A shallow embedding of [src/Cache.py] and [src/BtcOutputWatcher.py].

    Conventions of the embedding.
    - Python methods mutate [self] and may raise: they are computations in a
      state-and-exception monad [M S A := S -> Res A * S].  A raised
      exception keeps the state reached so far, as in Python.
    - [time.time()] is an oracle [clock : nat -> Q]: [clock n] is what the
      [n]-th call returns.  Floating point rounding is not modelled, time
      stamps are exact rationals.
    - [dict] is an insertion-ordered association list, as in CPython, because
      [Cache.cleanup] walks the store in that order, reading the clock once
      per key. *)

From Stdlib Require Import QArith Lqa Ascii String.
From stdpp Require Import gmap strings list.

Set Default Proof Using "Type".
Local Open Scope Q_scope.

(** ** Exceptions and the state-and-exception monad *)

Inductive Exn : Type :=
  | KeyError
  | ValueError
  | TypeError
  | FileNotFoundError
  | OSError
  | RuntimeError
  | ConnectionError.

Inductive Res (A : Type) : Type :=
  | Ok (a : A)
  | Raise (e : Exn).
Arguments Ok {A} a.
Arguments Raise {A} e.

Definition M (S A : Type) : Type := S -> Res A * S.

Definition ret {S A} (a : A) : M S A := fun s => (Ok a, s).

Definition bind {S A B} (m : M S A) (k : A -> M S B) : M S B :=
  fun s => match m s with
           | (Ok a, s') => k a s'
           | (Raise e, s') => (Raise e, s')
           end.

Definition raise {S A} (e : Exn) : M S A := fun s => (Raise e, s).

(** [try: m except Exception as e: h e].  Every member of [Exn] is a subclass
    of Python's [Exception]. *)
Definition try_except {S A} (m : M S A) (h : Exn -> M S A) : M S A :=
  fun s => match m s with
           | (Ok a, s') => (Ok a, s')
           | (Raise e, s') => h e s'
           end.

Definition get_state {S} : M S S := fun s => (Ok s, s).
Definition modify {S} (f : S -> S) : M S unit := fun s => (Ok tt, f s).

Notation "x <- c1 ;; c2" := (bind c1 (fun x => c2))
  (at level 100, c1 at next level, right associativity).
Notation "c1 ;; c2" := (bind c1 (fun _ => c2))
  (at level 100, right associativity).

(** [for x in l: body x] *)
Fixpoint for_each {S A} (l : list A) (body : A -> M S unit) : M S unit :=
  match l with
  | [] => ret tt
  | x :: r => body x ;; for_each r body
  end.

(** [[x for x in l if p x]] with an effectful test. *)
Fixpoint filter_m {S A} (p : A -> M S bool) (l : list A) : M S (list A) :=
  match l with
  | [] => ret []
  | x :: r =>
      b <- p x ;;
      r' <- filter_m p r ;;
      ret (if b then x :: r' else r')
  end.

(** ** Python dictionaries, insertion ordered *)

Section PyDict.
Context {K A : Type} `{EqDecision K}.

Definition dict : Type := list (K * A).

(** [d[k]], [None] standing for the [KeyError]. *)
Fixpoint dict_get (k : K) (d : dict) : option A :=
  match d with
  | [] => None
  | (k', a) :: r => if decide (k' = k) then Some a else dict_get k r
  end.

(** [k in d] *)
Definition dict_mem (k : K) (d : dict) : bool :=
  match dict_get k d with Some _ => true | None => false end.

(** [d[k] = a]: an existing key keeps its position, a new one goes last. *)
Fixpoint dict_set (k : K) (a : A) (d : dict) : dict :=
  match d with
  | [] => [(k, a)]
  | (k', a') :: r =>
      if decide (k' = k) then (k', a) :: r else (k', a') :: dict_set k a r
  end.

(** [d.pop(k, None)] and, on a key that is present, [del d[k]]. *)
Fixpoint dict_pop (k : K) (d : dict) : dict :=
  match d with
  | [] => []
  | (k', a') :: r =>
      if decide (k' = k) then dict_pop k r else (k', a') :: dict_pop k r
  end.

(** [list(d)]: the keys in insertion order. *)
Definition dict_keys (d : dict) : list K := fst <$> d.

End PyDict.
Arguments dict : clear implicits.

(** ** Cache.py *)

(** [now > expiry] on time stamps. *)
Definition Qgt_bool (x y : Q) : bool := negb (Qle_bool x y).

Section Cache.
Context {K V : Type} `{EqDecision K}.

(** [time.time()]: the reading of call number [n]. *)
Variable clock : nat -> Q.

Record Cache : Type := mkCache {
  _store : dict K (V * Q);   (* dict[Any, tuple[Any, float]] *)
  _default_ttl : Z
}.

(** A cache together with the number of clock readings taken so far. *)
Definition CacheSt : Type := nat * Cache.

Definition time_time : M CacheSt Q :=
  fun s => (Ok (clock s.1), (S s.1, s.2)).

Definition store_of (s : CacheSt) : dict K (V * Q) := _store s.2.

Definition with_store (f : dict K (V * Q) -> dict K (V * Q)) (s : CacheSt)
  : CacheSt :=
  (s.1, mkCache (f (_store s.2)) (_default_ttl s.2)).

(** [Cache.__init__] *)
Definition Cache_init (default_ttl : Z) : Cache := mkCache [] default_ttl.

(** [Cache._is_expired] *)
Definition _is_expired (key : K) : M CacheSt bool :=
  s <- get_state ;;
  match dict_get key (store_of s) with
  | None => ret true
  | Some (_, expiry) =>
      now <- time_time ;;
      ret (Qgt_bool now expiry)
  end.

(** [Cache.cleanup] *)
Definition cleanup : M CacheSt unit :=
  s <- get_state ;;
  expired_keys <- filter_m _is_expired (dict_keys (store_of s)) ;;
  for_each expired_keys (fun key => modify (with_store (dict_pop key))).

(** [Cache.set] *)
Definition set (key : K) (value : V) (ttl : option Z) : M CacheSt unit :=
  s <- get_state ;;
  now <- time_time ;;
  let expiry :=
    now + inject_Z (match ttl with Some t => t | None => _default_ttl s.2 end) in
  modify (with_store (dict_set key (value, expiry))).

(** [Cache.__getitem__] *)
Definition __getitem__ (key : K) : M CacheSt V :=
  expired <- _is_expired key ;;
  if expired then
    modify (with_store (dict_pop key)) ;;
    raise KeyError
  else
    s <- get_state ;;
    match dict_get key (store_of s) with
    | Some (value, _) => ret value
    | None => raise KeyError
    end.

(** [Cache.get] *)
Definition get (key : K) (default : option V) : M CacheSt (option V) :=
  try_except (v <- __getitem__ key ;; ret (Some v))
             (fun e => match e with
                       | KeyError => ret default
                       | _ => raise e
                       end).

(** [Cache.__setitem__] *)
Definition __setitem__ (key : K) (value : V) : M CacheSt unit :=
  s <- get_state ;;
  now <- time_time ;;
  let expiry := now + inject_Z (_default_ttl s.2) in
  modify (with_store (dict_set key (value, expiry))).

(** [Cache.__delitem__] *)
Definition __delitem__ (key : K) : M CacheSt unit :=
  s <- get_state ;;
  if dict_mem key (store_of s) then modify (with_store (dict_pop key))
  else raise KeyError.

(** [Cache.__iter__] *)
Definition __iter__ : M CacheSt (list K) :=
  cleanup ;;
  s <- get_state ;;
  ret (dict_keys (store_of s)).

(** [Cache.__len__] *)
Definition __len__ : M CacheSt nat :=
  cleanup ;;
  s <- get_state ;;
  ret (length (store_of s)).

(** [Cache.__contains__] *)
Definition __contains__ (key : K) : M CacheSt bool :=
  expired <- _is_expired key ;;
  if expired then
    modify (with_store (dict_pop key)) ;;
    ret false
  else
    s <- get_state ;;
    ret (dict_mem key (store_of s)).

End Cache.
Arguments Cache : clear implicits.
Arguments CacheSt : clear implicits.

(** ** Text helpers used by the watch-list loader

    Strings are sequences of bytes; only ASCII white space and ASCII digits
    are recognised, which covers the [txid,index] lines the loader reads. *)

(** [str.isspace] on one ASCII character: tab, line feed, vertical tab, form
    feed, carriage return, the four separators 28..31 and the space. *)
Definition is_space (a : ascii) : bool :=
  let n := nat_of_ascii a in
  ((9 <=? n)%nat && (n <=? 13)%nat) || ((28 <=? n)%nat && (n <=? 32)%nat).

Fixpoint lstrip (l : list ascii) : list ascii :=
  match l with
  | [] => []
  | a :: r => if is_space a then lstrip r else l
  end.

(** [str.strip()] *)
Definition strip (l : list ascii) : list ascii :=
  rev (lstrip (rev (lstrip l))).

(** [str.split(sep)] for a one-character separator. *)
Fixpoint split_on (sep : ascii) (l : list ascii) : list (list ascii) :=
  match l with
  | [] => [[]]
  | a :: r =>
      if decide (a = sep) then [] :: split_on sep r
      else match split_on sep r with
           | h :: t => (a :: h) :: t
           | [] => [[a]]
           end
  end.

Definition digit_of (a : ascii) : option Z :=
  let n := nat_of_ascii a in
  if ((48 <=? n)%nat && (n <=? 57)%nat) then Some (Z.of_nat n - 48)%Z else None.

(** Decimal digits with single underscores between them, as [int] accepts. *)
Fixpoint digits_value (acc : Z) (after_digit : bool) (l : list ascii)
  : option Z :=
  match l with
  | [] => if after_digit then Some acc else None
  | a :: r =>
      match digit_of a with
      | Some d => digits_value (10 * acc + d)%Z true r
      | None =>
          if decide (a = "_"%char) then
            if after_digit then digits_value acc false r else None
          else None
      end
  end.

(** [int(s)] in base ten; [None] stands for the [ValueError]. *)
Definition py_int (s : list ascii) : option Z :=
  match strip s with
  | a :: r =>
      if decide (a = "-"%char) then Z.opp <$> digits_value 0 false r
      else if decide (a = "+"%char) then digits_value 0 false r
      else digits_value 0 false (a :: r)
  | [] => None
  end.

(** [os.path.join(a, b)] on POSIX, two components. *)
Definition path_join (a b : string) : string :=
  match list_ascii_of_string b with
  | "/"%char :: _ => b
  | _ =>
      match rev (list_ascii_of_string a) with
      | [] => b
      | "/"%char :: _ => a +:+ b
      | _ => a +:+ "/" +:+ b
      end
  end.

(** ** BtcOutputWatcher.py: data *)

(** One element of a transaction's ["vin"] list.  The node's verbose
    transaction format gives ["txid"] as a string and ["vout"] as an integer;
    a coinbase input has neither key. *)
Record Vin : Type := mkVin {
  vin_txid : option string;   (* vin["txid"], when the key is present *)
  vin_vout : option Z         (* vin["vout"], when the key is present *)
}.

(** A transaction detail record, [dict[str, Any]] in the source; the keys the
    code reads are fields, the remaining ones are carried along. *)
Record Tx : Type := mkTx {
  tx_txid : option string;        (* tx["txid"], when present *)
  tx_vin : option (list Vin);     (* tx["vin"], when present *)
  tx_other : list (string * string)
}.

(** What [requests.post] returns, as far as [_rpc_call] looks at it:
    [response.status_code], [response.text] and [response.json()["result"]],
    whose evaluation may raise. *)
Record HttpResponse (A : Type) : Type := mkResponse {
  status_code : Z;
  text : string;
  json_result : Res A
}.
Arguments mkResponse {A}.
Arguments status_code {A}.
Arguments text {A}.
Arguments json_result {A}.

(** Constructor arguments that stay fixed ([self.outputs_file], ...).  The RPC
    credentials and address only select the node and are left out. *)
Record Config : Type := mkConfig {
  outputs_file : string;
  dump_folder : string;
  cache_ttl : Z;
  fetch_interval : Z
}.

(** The outside world, one oracle per kind of call, each indexed by the number
    of calls of that kind made before. *)
Record Env : Type := mkEnv {
  env_clock : nat -> Q;                                   (* time.time() *)
  env_open : nat -> Res (list string);                    (* lines of outputs_file *)
  env_getrawmempool : nat -> Res (HttpResponse (list string));
  env_getrawtransaction : nat -> string -> Res (HttpResponse Tx);
  env_write : nat -> option Exn;                          (* open(filepath, "w") + json.dump *)
  env_makedirs : option Exn
}.

Inductive Message : Type :=
  | MsgWatching (n : nat)                       (* "Watching {n} outputs..." *)
  | MsgMainLoopError (e : Exn)                  (* "Error in main loop: {e}" *)
  | MsgSleeping (seconds : Z)                   (* "Sleeping for {s} seconds..." *)
  | MsgFetchError (txid : string) (e : Exn)     (* "Error fetching transaction {txid}: {e}" *)
  | MsgDumped (txid filepath : string).         (* "Dumped transaction {txid} to {filepath}" *)

(** What the process does to the outside, in order. *)
Inductive Event : Type :=
  | EvOpen (path : string)
  | EvRpc (method : string) (params : list string)
  | EvWrite (filepath : string) (tx : Tx)
  | EvPrint (msg : Message)
  | EvSleep (seconds : Z)
  | EvMakedirs (path : string).

(** The mutable part of a [BtcOutputWatcher] and of its surroundings. *)
Record World : Type := mkWorld {
  cache : Cache string bool;
  watched_outputs : gset (string * Z);
  w_ticks : nat;                 (* calls of time.time() so far *)
  w_opens : nat;                 (* times the outputs file was opened *)
  w_rpcs : nat;                  (* requests posted *)
  w_writes : nat;                (* dump files opened for writing *)
  w_files : gmap string Tx;      (* the dump files on disk *)
  w_trace : list Event
}.

Definition set_cache_ticks (c : Cache string bool) (n : nat) (w : World) : World :=
  mkWorld c (watched_outputs w) n (w_opens w) (w_rpcs w) (w_writes w)
          (w_files w) (w_trace w).
Definition set_watched_outputs (wo : gset (string * Z)) (w : World) : World :=
  mkWorld (cache w) wo (w_ticks w) (w_opens w) (w_rpcs w) (w_writes w)
          (w_files w) (w_trace w).
Definition incr_opens (w : World) : World :=
  mkWorld (cache w) (watched_outputs w) (w_ticks w) (S (w_opens w)) (w_rpcs w)
          (w_writes w) (w_files w) (w_trace w).
Definition incr_rpcs (w : World) : World :=
  mkWorld (cache w) (watched_outputs w) (w_ticks w) (w_opens w) (S (w_rpcs w))
          (w_writes w) (w_files w) (w_trace w).
Definition incr_writes (w : World) : World :=
  mkWorld (cache w) (watched_outputs w) (w_ticks w) (w_opens w) (w_rpcs w)
          (S (w_writes w)) (w_files w) (w_trace w).
Definition set_files (f : gmap string Tx) (w : World) : World :=
  mkWorld (cache w) (watched_outputs w) (w_ticks w) (w_opens w) (w_rpcs w)
          (w_writes w) f (w_trace w).
Definition emit (ev : Event) (w : World) : World :=
  mkWorld (cache w) (watched_outputs w) (w_ticks w) (w_opens w) (w_rpcs w)
          (w_writes w) (w_files w) (w_trace w ++ [ev]).

(** ** BtcOutputWatcher.py: methods *)

(** The loop of [_tx_spends_watched_outputs] over the inputs.  The second
    component counts the inputs the loop has looked at when it returns. *)
Fixpoint scan_inputs (watched : gset (string * Z)) (vins : list Vin)
  : bool * nat :=
  match vins with
  | [] => (false, O)
  | vin :: rest =>
      match vin_txid vin, vin_vout vin with
      | Some prev_txid, Some prev_output_index =>
          if decide ((prev_txid, prev_output_index) ∈ watched) then (true, 1%nat)
          else let r := scan_inputs watched rest in (r.1, S r.2)
      | _, _ => let r := scan_inputs watched rest in (r.1, S r.2)
      end
  end.

(** [BtcOutputWatcher._tx_spends_watched_outputs], [self] being read only for
    [self.watched_outputs]. *)
Definition _tx_spends_watched_outputs (watched : gset (string * Z)) (tx : Tx)
  : bool :=
  (scan_inputs watched (default [] (tx_vin tx))).1.

(** One line of the outputs file inside [_load_watched_outputs]: [None] for a
    blank line, otherwise the pair or the [ValueError] of the unpacking or of
    [int]. *)
Definition parse_line (line : string) : Res (option (string * Z)) :=
  match strip (list_ascii_of_string line) with
  | [] => Ok None
  | stripped =>
      match split_on ","%char stripped with
      | [txid; output_index] =>
          match py_int output_index with
          | Some i => Ok (Some (string_of_list_ascii txid, i))
          | None => Raise ValueError
          end
      | _ => Raise ValueError
      end
  end.

(** The [for line in f] loop of [_load_watched_outputs] on the local set. *)
Fixpoint load_lines (watched_outputs : gset (string * Z)) (lines : list string)
  : Res (gset (string * Z)) :=
  match lines with
  | [] => Ok watched_outputs
  | line :: rest =>
      match parse_line line with
      | Ok None => load_lines watched_outputs rest
      | Ok (Some p) => load_lines (watched_outputs ∪ {[ p ]}) rest
      | Raise e => Raise e
      end
  end.

Section Watcher.
Variable cfg : Config.
Variable env : Env.

Definition print (msg : Message) : M World unit := modify (emit (EvPrint msg)).

(** [time.sleep] *)
Definition time_sleep (seconds : Z) : M World unit :=
  modify (emit (EvSleep seconds)).

(** A method of [self.cache] run on the watcher's world. *)
Definition on_cache {A} (m : M (CacheSt string bool) A) : M World A :=
  fun w => let '(r, (n, c)) := m (w_ticks w, cache w) in
           (r, set_cache_ticks c n w).

(** [BtcOutputWatcher._load_watched_outputs] *)
Definition _load_watched_outputs : M World (gset (string * Z)) :=
  w <- get_state ;;
  modify (fun w => emit (EvOpen (outputs_file cfg)) (incr_opens w)) ;;
  match env_open env (w_opens w) with
  | Raise e => raise e
  | Ok lines =>
      match load_lines ∅ lines with
      | Ok watched_outputs => ret watched_outputs
      | Raise e => raise e
      end
  end.

(** [BtcOutputWatcher._rpc_call]; [oracle] is the node's answer to this
    method and these parameters. *)
Definition _rpc_call {A} (method : string) (params : list string)
    (oracle : nat -> Res (HttpResponse A)) : M World A :=
  w <- get_state ;;
  modify (fun w => emit (EvRpc method params) (incr_rpcs w)) ;;
  match oracle (w_rpcs w) with
  | Raise e => raise e
  | Ok response =>
      if decide (status_code response ≠ 200%Z) then raise RuntimeError
      else match json_result response with
           | Ok result => ret result
           | Raise e => raise e
           end
  end.

(** [BtcOutputWatcher._dump_transaction] *)
Definition _dump_transaction (tx : Tx) : M World unit :=
  let txid := default "unknown_txid" (tx_txid tx) in
  let filepath := path_join (dump_folder cfg) (txid +:+ ".json") in
  w <- get_state ;;
  modify incr_writes ;;
  match env_write env (w_writes w) with
  | Some e => raise e
  | None =>
      modify (fun w => emit (EvWrite filepath tx)
                            (set_files (<[filepath := tx]> (w_files w)) w)) ;;
      print (MsgDumped txid filepath)
  end.

(** The [try] statement inside the loop of [_process_mempool]: fetch the
    transaction, test it and dump it on a match; any exception is printed and
    dropped. *)
Definition fetch_and_match (txid : string) : M World unit :=
  try_except
    (raw_tx <- _rpc_call "getrawtransaction" [txid; "True"]
                 (fun n => env_getrawtransaction env n txid) ;;
     w <- get_state ;;
     if _tx_spends_watched_outputs (watched_outputs w) raw_tx
     then _dump_transaction raw_tx
     else ret tt)
    (fun e => print (MsgFetchError txid e)).

(** The body of the [for txid in txids] loop of [_process_mempool]. *)
Definition process_txid (txid : string) : M World unit :=
  seen <- on_cache (__contains__ (env_clock env) txid) ;;
  if seen then ret tt   (* continue *)
  else
    fetch_and_match txid ;;
    on_cache (set (env_clock env) txid true None).

(** [BtcOutputWatcher._process_mempool] *)
Definition _process_mempool : M World unit :=
  txids <- _rpc_call "getrawmempool" [] (env_getrawmempool env) ;;
  for_each txids process_txid ;;
  on_cache (cleanup (env_clock env)).

(** [BtcOutputWatcher.__init__], from a world in which nothing has happened
    yet; the dump files already on disk are [files]. *)
Definition fresh_world (files : gmap string Tx) : World :=
  mkWorld (Cache_init (cache_ttl cfg)) ∅ 0 0 0 0 files [].

Definition __init__ : M World unit :=
  wo <- _load_watched_outputs ;;
  modify (set_watched_outputs wo) ;;
  modify (emit (EvMakedirs (dump_folder cfg))) ;;
  match env_makedirs env with
  | Some e => raise e
  | None => ret tt
  end.

(** One turn of the [while True] loop of [run]. *)
Definition run_cycle : M World unit :=
  wo <- _load_watched_outputs ;;
  modify (set_watched_outputs wo) ;;
  print (MsgWatching (size wo)) ;;
  try_except _process_mempool (fun e => print (MsgMainLoopError e)) ;;
  print (MsgSleeping (fetch_interval cfg)) ;;
  time_sleep (fetch_interval cfg).

(** [BtcOutputWatcher.run], cut after [cycles] turns: [Ok] means the loop is
    still running, [Raise] that an exception left [run]. *)
Fixpoint run (cycles : nat) : M World unit :=
  match cycles with
  | O => ret tt
  | S n => run_cycle ;; run n
  end.

(** [scripts/main.py]: build the watcher, then run it. *)
Definition main (cycles : nat) : M World unit :=
  __init__ ;; run cycles.

End Watcher.


(** * Vocabulary of the statements

    Nothing below is part of the program: these definitions name what the
    properties talk about (sequences of calls on a cache, the events that
    count as a fetch, the listing a cycle works on). *)

(** ** Calls on a cache *)

Inductive CacheOp (K V : Type) : Type :=
  | OpSet (key : K) (value : V) (ttl : option Z)
  | OpSetItem (key : K) (value : V)
  | OpGet (key : K) (default : option V)
  | OpGetItem (key : K)
  | OpDelItem (key : K)
  | OpContains (key : K)
  | OpCleanup
  | OpIter
  | OpLen.
Arguments OpSet {K V}.
Arguments OpSetItem {K V}.
Arguments OpGet {K V}.
Arguments OpGetItem {K V}.
Arguments OpDelItem {K V}.
Arguments OpContains {K V}.
Arguments OpCleanup {K V}.
Arguments OpIter {K V}.
Arguments OpLen {K V}.

(** The calls that store or remove [k] on request: [set], [cache[k] = v] and
    [del cache[k]]. *)
Definition writes_key {K V} `{EqDecision K} (k : K) (op : CacheOp K V) : bool :=
  match op with
  | OpSet key _ _ | OpSetItem key _ | OpDelItem key => bool_decide (key = k)
  | _ => false
  end.

Section CacheCalls.
Context {K V : Type} `{EqDecision K}.
Variable clock : nat -> Q.

(** One call, its result dropped. *)
Definition run_op (op : CacheOp K V) : M (CacheSt K V) unit :=
  match op with
  | OpSet key value ttl => set clock key value ttl
  | OpSetItem key value => __setitem__ clock key value
  | OpGet key default => get clock key default ;; ret tt
  | OpGetItem key => __getitem__ clock key ;; ret tt
  | OpDelItem key => __delitem__ key
  | OpContains key => __contains__ clock key ;; ret tt
  | OpCleanup => cleanup clock
  | OpIter => __iter__ clock ;; ret tt
  | OpLen => __len__ clock ;; ret tt
  end.

(** A caller making the calls one after the other, going on after a
    [KeyError]. *)
Definition run_ops (ops : list (CacheOp K V)) : M (CacheSt K V) unit :=
  for_each ops (fun op => try_except (run_op op) (fun _ => ret tt)).

(** [evolves k s s']: from [s] to [s'] the count of readings did not go
    down, the default lifetime is the same, and the entry of [k] is either
    what it was or has been evicted after a reading past its expiry. *)
Definition evolves (k : K) (s s' : CacheSt K V) : Prop :=
  (s.1 <= s'.1)%nat
  /\ _default_ttl s'.2 = _default_ttl s.2
  /\ (dict_get k (_store s'.2) = dict_get k (_store s.2)
      \/ exists v e m,
           dict_get k (_store s.2) = Some (v, e)
           /\ dict_get k (_store s'.2) = None
           /\ (s.1 <= m < s'.1)%nat /\ e < clock m).

End CacheCalls.

(** The lifetime [set] gives an entry. *)
Definition ttl_of {K V} (c : Cache K V) (ttl : option Z) : Z :=
  match ttl with Some t => t | None => _default_ttl c end.

(** Successive readings of the clock never go back. *)
Definition monotone (clock : nat -> Q) : Prop :=
  forall i j : nat, (i <= j)%nat -> clock i <= clock j.

(** ** Vocabulary for the poller *)

(** An input that spends a watched output: it carries both fields and their
    pair is in the watch-list. *)
Definition spends_watched (watched : gset (string * Z)) (vin : Vin) : Prop :=
  exists prev_txid prev_output_index,
    vin_txid vin = Some prev_txid
    /\ vin_vout vin = Some prev_output_index
    /\ (prev_txid, prev_output_index) ∈ watched.

(** The inputs of a transaction, none when the record has no ["vin"]. *)
Definition inputs_of (tx : Tx) : list Vin := default [] (tx_vin tx).

(** What [_rpc_call] makes of the node's answer. *)
Definition rpc_outcome {A} (answer : Res (HttpResponse A)) : Res A :=
  match answer with
  | Raise e => Raise e
  | Ok response =>
      if decide (status_code response ≠ 200%Z) then Raise RuntimeError
      else json_result response
  end.

(** The request by which the detail of [txid] is fetched. *)
Definition is_fetch (txid : string) (ev : Event) : bool :=
  match ev with
  | EvRpc method params =>
      bool_decide (method = "getrawtransaction")
      && bool_decide (params = [txid; "True"])
  | _ => false
  end.

(** How many times the detail of [txid] was fetched in a trace. *)
Fixpoint fetches (txid : string) (tr : list Event) : nat :=
  match tr with
  | [] => 0
  | ev :: rest => (if is_fetch txid ev then 1 else 0) + fetches txid rest
  end.


(** The entry the cache holds for [txid], expired or not. *)
Definition cache_entry (w : World) (txid : string) : option (bool * Q) :=
  dict_get txid (_store (cache w)).

(** [leaves_alone clock txid w w']: from [w] to [w'] the entry of [txid] in
    the cache evolved without being written, the watch-list is the same, and
    what was added to the trace holds no fetch of [txid]. *)
Definition leaves_alone (clock : nat -> Q) (txid : string) (w w' : World)
  : Prop :=
  evolves clock txid (w_ticks w, cache w) (w_ticks w', cache w')
  /\ watched_outputs w' = watched_outputs w
  /\ exists evs, w_trace w' = w_trace w ++ evs /\ fetches txid evs = 0%nat.

(** [silent w w']: from [w] to [w'] the cache and the count of clock
    readings are the same and no fetch was added to the trace. *)
Definition silent (w w' : World) : Prop :=
  cache w' = cache w
  /\ w_ticks w' = w_ticks w
  /\ exists evs, w_trace w' = w_trace w ++ evs
                 /\ forall txid, fetches txid evs = 0%nat.

(** ** Vocabulary for further properties *)

Section LiveDefs.
Context {K V : Type} `{EqDecision K}.

(** [live now d k]: [d] holds an entry for [k] that is not past its expiry
    when the clock reads [now]. *)
Definition live (now : Q) (d : dict K (V * Q)) (k : K) : bool :=
  match dict_get k d with
  | Some (_, expiry) => negb (Qgt_bool now expiry)
  | None => false
  end.

End LiveDefs.

(** The file [_dump_transaction] writes a record to. *)
Definition dump_path (cfg : Config) (tx : Tx) : string :=
  path_join (dump_folder cfg) (default "unknown_txid" (tx_txid tx) +:+ ".json").

(** The events a scan of the mempool can add to the trace: requests, dump
    files and the two messages of the loop body. *)
Definition scan_event (ev : Event) : bool :=
  match ev with
  | EvRpc _ _ | EvWrite _ _ => true
  | EvPrint (MsgFetchError _ _) | EvPrint (MsgDumped _ _) => true
  | _ => false
  end.


(** [scan_frame w w']: what a scan leaves alone from [w] to [w']: the
    watch-list and the count of file openings are the same, no dump file has
    disappeared, and the trace has grown by events of a scan only. *)
Definition scan_frame (w w' : World) : Prop :=
  watched_outputs w' = watched_outputs w
  /\ w_opens w' = w_opens w
  /\ dom (w_files w) ⊆ dom (w_files w')
  /\ exists evs, w_trace w' = w_trace w ++ evs
                 /\ forallb scan_event evs = true.

(** What the load at the start of a cycle begun in [w] gives. *)
Definition loaded (env : Env) (w : World) : Res (gset (string * Z)) :=
  match env_open env (w_opens w) with
  | Ok lines => load_lines ∅ lines
  | Raise e => Raise e
  end.

(** A path that begins with a slash. *)
Definition absolute (path : string) : bool :=
  match path with
  | String "/"%char _ => true
  | _ => false
  end.

(** [marks_only cfg env w]: the cache of [w] has the configured default
    lifetime and holds nothing but marks: every entry has the value [True],
    belongs to an identifier whose detail has been requested, and expires
    [cache_ttl] after a reading of the clock already taken. *)
Definition marks_only (cfg : Config) (env : Env) (w : World) : Prop :=
  _default_ttl (cache w) = cache_ttl cfg
  /\ forall txid v e,
       cache_entry w txid = Some (v, e) ->
       v = true
       /\ (1 <= fetches txid (w_trace w))%nat
       /\ exists m, (m < w_ticks w)%nat
                    /\ e = env_clock env m + inject_Z (cache_ttl cfg).

(** The pairs the lines of a file give, blank lines and lines in error giving
    none. *)
Fixpoint parsed_pairs (lines : list string) : gset (string * Z) :=
  match lines with
  | [] => ∅
  | line :: rest =>
      match parse_line line with
      | Ok (Some p) => {[ p ]} ∪ parsed_pairs rest
      | _ => parsed_pairs rest
      end
  end.

(** The line parses, to a pair or as a blank line. *)
Definition parses (line : string) : bool :=
  match parse_line line with Ok _ => true | Raise _ => false end.



(** ** Concrete inputs used to exercise the statements *)

(** A clock that advances five seconds from one reading to the next. *)
Definition clock5 (n : nat) : Q := inject_Z (5 * Z.of_nat n).

(** A clock that stands still at second five. *)
Definition clock_at_5 (n : nat) : Q := 5.

(** A cache with one entry that expires at second five and one that expires
    at second nine. *)
Definition cache_5_9 : Cache string bool :=
  mkCache [("k", (true, 5)); ("j", (false, 9))] 60.


(** The scenario of the specification: the watch-list file holds
    [abc123,0]; the mempool lists [txA] and [txB]; [txA] spends
    [(abc123, 0)] and [txB] spends [(def456, 2)]. *)
Definition newline : string := String (ascii_of_nat 10) EmptyString.

Definition outputs_lines : list string := ["abc123,0" +:+ newline; newline].

Definition txA : Tx :=
  mkTx (Some "txA") (Some [mkVin (Some "abc123") (Some 0%Z)]) [("size", "191")].

Definition txB : Tx :=
  mkTx (Some "txB") (Some [mkVin None None; mkVin (Some "def456") (Some 2%Z)]) [].

(** A matching transaction whose record has no ["txid"]. *)
Definition tx_anonymous (note : string) : Tx :=
  mkTx None (Some [mkVin (Some "abc123") (Some 0%Z)]) [("note", note)].

(** Inputs [(A, 0)] and [(B, 1)]. *)
Definition tx_AB : Tx :=
  mkTx (Some "tx") (Some [mkVin (Some "A") (Some 0%Z); mkVin (Some "B") (Some 1%Z)]) [].

Definition cfg0 : Config := mkConfig "outputs.txt" "dumped_txs" 3600 180.

(** A lifetime shorter than the five seconds between two readings. *)
Definition cfg_short : Config := mkConfig "outputs.txt" "dumped_txs" 3 180.

Definition node_answers (txid : string) : Res (HttpResponse Tx) :=
  if decide (txid = "txA") then Ok (mkResponse 200 "" (Ok txA))
  else if decide (txid = "txB") then Ok (mkResponse 200 "" (Ok txB))
  else Ok (mkResponse 500 "No such mempool transaction" (Raise KeyError)).

Definition env_scenario : Env :=
  mkEnv clock5
        (fun _ => Ok outputs_lines)
        (fun _ => Ok (mkResponse 200 "" (Ok ["txA"; "txB"])))
        (fun _ => node_answers)
        (fun _ => None)
        None.

(** The same, but the node answers 500 when asked for [txB]. *)
Definition env_fetch_fails : Env :=
  mkEnv clock5
        (fun _ => Ok outputs_lines)
        (fun _ => Ok (mkResponse 200 "" (Ok ["txA"; "txB"])))
        (fun _ txid =>
           if decide (txid = "txB")
           then Ok (mkResponse 500 "Internal error" (Raise KeyError))
           else node_answers txid)
        (fun _ => None)
        None.

(** The same as the scenario, but the outputs file is gone when it is opened
    for the third time (construction, first cycle, second cycle). *)
Definition env_file_removed : Env :=
  mkEnv clock5
        (fun n => if (n <? 2)%nat then Ok outputs_lines
                  else Raise FileNotFoundError)
        (fun _ => Ok (mkResponse 200 "" (Ok ["txA"; "txB"])))
        (fun _ => node_answers)
        (fun _ => None)
        None.

(** The same, but a line without a comma has been appended to the file when
    it is opened for the third time. *)
Definition env_bad_line : Env :=
  mkEnv clock5
        (fun n => if (n <? 2)%nat then Ok outputs_lines
                  else Ok (outputs_lines ++ ["def456,2" +:+ newline; "garbage"]))
        (fun _ => Ok (mkResponse 200 "" (Ok ["txA"; "txB"])))
        (fun _ => node_answers)
        (fun _ => None)
        None.

(** The world after the first full cycle of the scenario, and after the
    second. *)
Definition world0 : World := fresh_world cfg0 ∅.
Definition world1 : World := (run_cycle cfg0 env_scenario world0).2.

(** ** Further concrete inputs *)

(** A cache with three entries, expiring at seconds nine, five and twenty. *)
Definition cache_jk : Cache string bool :=
  mkCache [("j", (false, 9)); ("k", (true, 5)); ("m", (true, 20))] 60.




(** The scenario with a dump folder that cannot be created. *)
Definition env_no_folder : Env :=
  mkEnv clock5
        (fun _ => Ok outputs_lines)
        (fun _ => Ok (mkResponse 200 "" (Ok ["txA"; "txB"])))
        (fun _ => node_answers)
        (fun _ => None)
        (Some OSError).
(** * Properties *)

(** ** Time stamps *)

Lemma Qgt_bool_true (x y : Q) : Qgt_bool x y = true <-> y < x.
Proof.
  unfold Qgt_bool. rewrite negb_true_iff.
  destruct (Qle_bool x y) eqn:E.
  - apply Qle_bool_iff in E. split; [discriminate | intros; lra].
  - split; [intros _ | reflexivity].
    destruct (Qlt_le_dec y x) as [Hlt | Hle]; [exact Hlt |].
    apply Qle_bool_iff in Hle. congruence.
Qed.

Lemma Qgt_bool_false (x y : Q) : Qgt_bool x y = false <-> x <= y.
Proof.
  unfold Qgt_bool. rewrite negb_false_iff. apply Qle_bool_iff.
Qed.

(** ** Dictionaries *)

Section PyDictFacts.
Context {K A : Type} `{EqDecision K}.
Implicit Types (d : dict K A) (k : K) (a : A).

Lemma dict_mem_true k d : dict_mem k d = true <-> is_Some (dict_get k d).
Proof.
  unfold dict_mem. destruct (dict_get k d); split; intros H0; eauto;
    try discriminate. by destruct H0.
Qed.

Lemma dict_mem_false k d : dict_mem k d = false <-> dict_get k d = None.
Proof. unfold dict_mem. by destruct (dict_get k d). Qed.

Lemma dict_get_set_eq k a d : dict_get k (dict_set k a d) = Some a.
Proof.
  induction d as [| [k' a'] d IH]; simpl.
  - by rewrite decide_True.
  - destruct (decide (k' = k)) as [-> | Hne]; simpl.
    + by rewrite decide_True.
    + by rewrite decide_False.
Qed.

Lemma dict_get_set_ne k k' a d :
  k <> k' -> dict_get k' (dict_set k a d) = dict_get k' d.
Proof.
  intros Hne. induction d as [| [k0 a0] d IH]; simpl.
  - by rewrite decide_False.
  - destruct (decide (k0 = k)) as [-> | Hne0]; simpl.
    + by rewrite !decide_False.
    + by rewrite IH.
Qed.

Lemma dict_get_pop_eq k d : dict_get k (dict_pop k d) = None.
Proof.
  induction d as [| [k' a'] d IH]; simpl; [done |].
  destruct (decide (k' = k)) as [-> | Hne]; simpl; [done |].
  by rewrite decide_False.
Qed.

Lemma dict_get_pop_ne k k' d :
  k <> k' -> dict_get k' (dict_pop k d) = dict_get k' d.
Proof.
  intros Hne. induction d as [| [k0 a0] d IH]; simpl; [done |].
  destruct (decide (k0 = k)) as [-> | Hne0]; simpl.
  - by rewrite decide_False.
  - by rewrite IH.
Qed.

Lemma dict_keys_set_present k a d :
  is_Some (dict_get k d) -> dict_keys (dict_set k a d) = dict_keys d.
Proof.
  unfold dict_keys. induction d as [| [k' a'] d IH]; simpl.
  - by intros [? ?].
  - destruct (decide (k' = k)) as [-> | Hne]; simpl; [done |].
    intros Hs. f_equal. by apply IH.
Qed.

Lemma dict_set_set k a a' d : dict_set k a (dict_set k a' d) = dict_set k a d.
Proof.
  induction d as [| [k0 a0] d IH]; simpl.
  - by rewrite decide_True.
  - destruct (decide (k0 = k)) as [-> | Hne]; simpl.
    + by rewrite decide_True.
    + by rewrite decide_False, IH.
Qed.

Lemma dict_get_keys k d : is_Some (dict_get k d) <-> k ∈ dict_keys d.
Proof.
  unfold dict_keys. induction d as [| [k' a'] d IH]; simpl.
  - split; [by intros [? ?] | by intros ?%elem_of_nil].
  - rewrite elem_of_cons. destruct (decide (k' = k)) as [-> | Hne]; simpl.
    + split; eauto.
    + rewrite IH. split; [by right | by intros [-> |]].
Qed.

(** Popping several keys, as the second loop of [cleanup] does. *)
Lemma dict_get_pop_all (ks : list K) k d :
  dict_get k (foldl (fun acc key => dict_pop key acc) d ks)
  = if decide (k ∈ ks) then None else dict_get k d.
Proof.
  revert d. induction ks as [| k0 ks IH]; intros d.
  - done.
  - change (foldl (fun acc key => dict_pop key acc) d (k0 :: ks))
      with (foldl (fun acc key => dict_pop key acc) (dict_pop k0 d) ks).
    rewrite IH. destruct (decide (k ∈ ks)) as [Hin | Hnin].
    + rewrite decide_True; [done | by right].
    + destruct (decide (k0 = k)) as [-> | Hne].
      * rewrite decide_True; [| by left]. apply dict_get_pop_eq.
      * rewrite decide_False; [by apply dict_get_pop_ne |].
        by intros [-> |]%elem_of_cons.
Qed.

End PyDictFacts.

(** ** The cache *)

Ltac munfold :=
  unfold bind, ret, raise, try_except, get_state, modify in *.

Section CacheFacts.
Context {K V : Type} `{EqDecision K}.
Variable clock : nat -> Q.
Implicit Types (c : Cache K V) (k key : K) (n : nat).

Lemma is_expired_absent key n c :
  dict_get key (_store c) = None ->
  _is_expired clock key (n, c) = (Ok true, (n, c)).
Proof. intros Hg. unfold _is_expired, store_of. munfold. simpl. by rewrite Hg. Qed.

Lemma is_expired_present key n c v e :
  dict_get key (_store c) = Some (v, e) ->
  _is_expired clock key (n, c) = (Ok (Qgt_bool (clock n) e), (S n, c)).
Proof. intros Hg. unfold _is_expired, store_of. munfold. simpl. by rewrite Hg. Qed.

Lemma set_eq key value ttl n c :
  set clock key value ttl (n, c)
  = (Ok tt, (S n, mkCache (dict_set key (value, clock n + inject_Z (ttl_of c ttl))
                                    (_store c))
                          (_default_ttl c))).
Proof. reflexivity. Qed.

Lemma setitem_eq key value n c :
  __setitem__ clock key value (n, c) = set clock key value None (n, c).
Proof. reflexivity. Qed.

Lemma contains_absent key n c :
  dict_get key (_store c) = None ->
  __contains__ clock key (n, c)
  = (Ok false, (n, mkCache (dict_pop key (_store c)) (_default_ttl c))).
Proof.
  intros Hg. unfold __contains__. munfold. by rewrite (is_expired_absent _ _ _ Hg).
Qed.

Lemma contains_present key n c v e :
  dict_get key (_store c) = Some (v, e) ->
  __contains__ clock key (n, c)
  = if Qgt_bool (clock n) e
    then (Ok false, (S n, mkCache (dict_pop key (_store c)) (_default_ttl c)))
    else (Ok true, (S n, c)).
Proof.
  intros Hg. unfold __contains__. munfold.
  rewrite (is_expired_present _ _ _ _ _ Hg).
  destruct (Qgt_bool (clock n) e); [done |].
  unfold store_of. simpl. by rewrite (proj2 (dict_mem_true _ _)).
Qed.

Lemma getitem_absent key n c :
  dict_get key (_store c) = None ->
  __getitem__ clock key (n, c)
  = (Raise KeyError, (n, mkCache (dict_pop key (_store c)) (_default_ttl c))).
Proof.
  intros Hg. unfold __getitem__. munfold. by rewrite (is_expired_absent _ _ _ Hg).
Qed.

Lemma getitem_present key n c v e :
  dict_get key (_store c) = Some (v, e) ->
  __getitem__ clock key (n, c)
  = if Qgt_bool (clock n) e
    then (Raise KeyError, (S n, mkCache (dict_pop key (_store c)) (_default_ttl c)))
    else (Ok v, (S n, c)).
Proof.
  intros Hg. unfold __getitem__. munfold.
  rewrite (is_expired_present _ _ _ _ _ Hg).
  destruct (Qgt_bool (clock n) e); [done |].
  unfold store_of. simpl. by rewrite Hg.
Qed.

Lemma for_each_pop (ks : list K) n c :
  for_each ks (fun key => modify (with_store (dict_pop key))) (n, c)
  = (Ok tt, (n, mkCache (foldl (fun acc key => dict_pop key acc) (_store c) ks)
                        (_default_ttl c))).
Proof.
  revert c. induction ks as [| k0 ks IH]; intros c; simpl.
  - by destruct c.
  - munfold. unfold with_store at 1. simpl.
    change (for_each ks (fun key => modify (with_store (dict_pop key)))
              (n, mkCache (dict_pop k0 (_store c)) (_default_ttl c)) =
            (Ok tt, (n, mkCache (foldl (fun acc key => dict_pop key acc)
                                       (dict_pop k0 (_store c)) ks)
                                (_default_ttl c)))).
    by rewrite IH.
Qed.

(** The comprehension of [cleanup]: one reading per key, in order, and a key
    is selected exactly by a reading past its expiry. *)
Lemma expired_keys_spec (ks : list K) n c :
  (forall k, k ∈ ks -> is_Some (dict_get k (_store c))) ->
  exists xs,
    filter_m (_is_expired clock) ks (n, c) = (Ok xs, ((n + length ks)%nat, c))
    /\ forall k, k ∈ xs <->
         exists i v e, ks !! i = Some k /\ dict_get k (_store c) = Some (v, e)
                       /\ e < clock (n + i)%nat.
Proof.
  revert n. induction ks as [| k0 ks IH]; intros n Hin.
  - exists []. split; [simpl; munfold; by rewrite Nat.add_0_r |].
    intros k. split; [by intros ?%elem_of_nil | by intros (i & ? & ? & ? & _)].
  - destruct (Hin k0) as [[v0 e0] Hk0]; [by left |].
    destruct (IH (S n)) as (xs & Hrun & Hxs); [intros; apply Hin; by right |].
    exists (if Qgt_bool (clock n) e0 then k0 :: xs else xs). split.
    + simpl. munfold. rewrite (is_expired_present _ _ _ _ _ Hk0), Hrun.
      by replace (n + S (length ks))%nat with (S n + length ks)%nat by lia.
    + intros k. split.
      * intros Hk.
        assert (k = k0 /\ e0 < clock n \/ k ∈ xs) as [[-> Hlt] | Hk'].
        { destruct (Qgt_bool (clock n) e0) eqn:E; [| by right].
          apply elem_of_cons in Hk as [-> |]; [left | by right].
          split; [done | by apply Qgt_bool_true]. }
        -- exists 0%nat, v0, e0. by rewrite Nat.add_0_r.
        -- apply Hxs in Hk' as (i & v & e & Hi & Hg & Hlt).
           exists (S i), v, e. split_and!; [done | done |].
           by replace (n + S i)%nat with (S n + i)%nat by lia.
      * intros (i & v & e & Hi & Hg & Hlt). destruct i as [| i]; simpl in Hi.
        -- injection Hi as ->. rewrite Hk0 in Hg. injection Hg as -> ->.
           rewrite Nat.add_0_r in Hlt. apply Qgt_bool_true in Hlt.
           rewrite Hlt. by left.
        -- assert (k ∈ xs) as Hk.
           { apply Hxs. exists i, v, e. split_and!; [done | done |].
             by replace (S n + i)%nat with (n + S i)%nat by lia. }
           destruct (Qgt_bool (clock n) e0); [by right | done].
Qed.

(** What [cleanup] does, key by key. *)
Lemma cleanup_spec n c :
  exists c',
    cleanup clock (n, c) = (Ok tt, ((n + length (_store c))%nat, c'))
    /\ _default_ttl c' = _default_ttl c
    /\ forall k,
         match dict_get k (_store c) with
         | None => dict_get k (_store c') = None
         | Some (v, e) =>
             (dict_get k (_store c') = Some (v, e)
              /\ exists i, (i < length (_store c))%nat /\ clock (n + i)%nat <= e)
             \/ (dict_get k (_store c') = None
                 /\ exists i, (i < length (_store c))%nat /\ e < clock (n + i)%nat)
         end.
Proof.
  destruct (expired_keys_spec (dict_keys (_store c)) n c) as (xs & Hrun & Hxs).
  { intros k. apply dict_get_keys. }
  eexists. split; [| split].
  - unfold cleanup. munfold. unfold store_of at 1. simpl. rewrite Hrun.
    rewrite for_each_pop. unfold dict_keys. by rewrite length_fmap.
  - done.
  - intros k. simpl. rewrite dict_get_pop_all.
    destruct (dict_get k (_store c)) as [[v e] |] eqn:Hg.
    + destruct (decide (k ∈ xs)) as [Hin | Hnin].
      * right. split; [done |].
        apply Hxs in Hin as (i & v' & e' & Hi & Hg' & Hlt).
        rewrite Hg in Hg'. injection Hg' as <- <-.
        exists i. split; [| done].
        apply lookup_lt_Some in Hi. unfold dict_keys in Hi.
        by rewrite length_fmap in Hi.
      * left. split; [done |].
        assert (k ∈ dict_keys (_store c)) as Hk
          by (apply dict_get_keys; eauto).
        apply list_elem_of_lookup in Hk as [i Hi].
        exists i. split.
        { apply lookup_lt_Some in Hi. unfold dict_keys in Hi.
          by rewrite length_fmap in Hi. }
        destruct (Qlt_le_dec e (clock (n + i)%nat)) as [Hlt | Hle]; [| done].
        exfalso. apply Hnin, Hxs. eauto 6.
    + by destruct (decide (k ∈ xs)).
Qed.

(** A sweep whose readings all lie between [lo] and [hi]: what is stored
    afterwards does not expire before [lo], and what expires at [hi] or later
    is kept. *)
Lemma cleanup_between n c lo hi :
  (forall i, (i < length (_store c))%nat -> lo <= clock (n + i)%nat <= hi) ->
  exists c',
    cleanup clock (n, c) = (Ok tt, ((n + length (_store c))%nat, c'))
    /\ (forall k v e, dict_get k (_store c') = Some (v, e) ->
          dict_get k (_store c) = Some (v, e) /\ lo <= e)
    /\ (forall k v e, dict_get k (_store c) = Some (v, e) -> hi <= e ->
                      dict_get k (_store c') = Some (v, e)).
Proof.
  intros Hrange. destruct (cleanup_spec n c) as (c' & Hrun & _ & Hk).
  exists c'. split_and!; [done | |].
  - intros k v e Hg'. specialize (Hk k).
    destruct (dict_get k (_store c)) as [[v0 e0] |] eqn:Hg; [| congruence].
    destruct Hk as [[Hk (i & Hi & Hle)] | [Hk _]]; [| congruence].
    rewrite Hk in Hg'. injection Hg' as <- <-. split; [done |].
    destruct (Hrange i Hi) as [Hlo _]. lra.
  - intros k v e Hg Hle. specialize (Hk k). rewrite Hg in Hk.
    destruct Hk as [[Hk _] | [_ (i & Hi & Hlt)]]; [done |].
    destruct (Hrange i Hi) as [_ Hhi]. lra.
Qed.

End CacheFacts.

(** *** How a call changes the entry of one key *)

Section Evolves.
Context {K V : Type} `{EqDecision K}.
Variable clock : nat -> Q.
Implicit Types (c : Cache K V) (k key : K) (n : nat) (s : CacheSt K V).

Lemma evolves_refl k s : evolves clock k s s.
Proof. split_and!; [lia | done | by left]. Qed.

Lemma evolves_trans k s1 s2 s3 :
  evolves clock k s1 s2 -> evolves clock k s2 s3 -> evolves clock k s1 s3.
Proof.
  intros (Hle1 & Ht1 & H1) (Hle2 & Ht2 & H2).
  split_and!; [lia | congruence |].
  destruct H2 as [H2 | (v & e & m & Hg & Hn & Hm & Hlt)].
  - destruct H1 as [H1 | (v & e & m & Hg & Hn & Hm & Hlt)].
    + left. congruence.
    + right. exists v, e, m. split_and!; [done | congruence | lia | lia | done].
  - destruct H1 as [H1 | (v' & e' & m' & Hg' & Hn' & Hm' & Hlt')].
    + right. exists v, e, m. split_and!; [congruence | done | lia | lia | done].
    + congruence.
Qed.

Lemma evolves_set k key value ttl s r s' :
  key <> k -> set clock key value ttl s = (r, s') -> evolves clock k s s'.
Proof.
  destruct s as [n c]. rewrite set_eq. intros Hne [= <- <-].
  split_and!; simpl; [lia | done |]. left. by apply dict_get_set_ne.
Qed.

Lemma evolves_delitem k key s r s' :
  key <> k -> __delitem__ key s = (r, s') -> evolves clock k s s'.
Proof.
  destruct s as [n c]. unfold __delitem__, store_of. munfold. simpl.
  intros Hne. destruct (dict_mem key (_store c)); intros [= <- <-].
  - split_and!; simpl; [lia | done |]. left. by apply dict_get_pop_ne.
  - apply evolves_refl.
Qed.

(** Evicting [key] after [_is_expired] said so. *)
Lemma evolves_evict k key s :
  (forall v e, dict_get key (_store s.2) = Some (v, e) -> e < clock s.1) ->
  evolves clock k s (S s.1, mkCache (dict_pop key (_store s.2)) (_default_ttl s.2)).
Proof.
  intros Hexp. split_and!; simpl; [lia | done |].
  destruct (decide (key = k)) as [-> | Hne].
  - rewrite dict_get_pop_eq.
    destruct (dict_get k (_store s.2)) as [[v e] |] eqn:Hg; [| by left].
    right. exists v, e, s.1. split_and!; [done | done | lia | lia | eauto].
  - left. by apply dict_get_pop_ne.
Qed.

Lemma evolves_pop_absent k key n c :
  dict_get key (_store c) = None ->
  evolves clock k (n, c) (n, mkCache (dict_pop key (_store c)) (_default_ttl c)).
Proof.
  intros Hg. split_and!; simpl; [lia | done |]. left.
  destruct (decide (key = k)) as [-> | Hne].
  - by rewrite dict_get_pop_eq.
  - by apply dict_get_pop_ne.
Qed.

Lemma evolves_tick k n c : evolves clock k (n, c) (S n, c).
Proof. split_and!; simpl; [lia | done | by left]. Qed.

Lemma evolves_contains k key s r s' :
  __contains__ clock key s = (r, s') -> evolves clock k s s'.
Proof.
  destruct s as [n c].
  destruct (dict_get key (_store c)) as [[v e] |] eqn:Hg.
  - rewrite (contains_present _ _ _ _ _ _ Hg).
    destruct (Qgt_bool (clock n) e) eqn:E; intros [= <- <-].
    + apply (evolves_evict k key (n, c)). simpl. intros v' e' Hg'.
      rewrite Hg in Hg'. injection Hg' as <- <-. by apply Qgt_bool_true.
    + apply evolves_tick.
  - rewrite (contains_absent _ _ _ _ Hg). intros [= <- <-].
    by apply evolves_pop_absent.
Qed.

Lemma evolves_getitem k key s r s' :
  __getitem__ clock key s = (r, s') -> evolves clock k s s'.
Proof.
  destruct s as [n c].
  destruct (dict_get key (_store c)) as [[v e] |] eqn:Hg.
  - rewrite (getitem_present _ _ _ _ _ _ Hg).
    destruct (Qgt_bool (clock n) e) eqn:E; intros [= <- <-].
    + apply (evolves_evict k key (n, c)). simpl. intros v' e' Hg'.
      rewrite Hg in Hg'. injection Hg' as <- <-. by apply Qgt_bool_true.
    + apply evolves_tick.
  - rewrite (getitem_absent _ _ _ _ Hg). intros [= <- <-].
    by apply evolves_pop_absent.
Qed.

Lemma evolves_get k key default s r s' :
  get clock key default s = (r, s') -> evolves clock k s s'.
Proof.
  unfold get. munfold.
  destruct (__getitem__ clock key s) as [[v | e] s1] eqn:Hget;
    [intros [= <- <-] | destruct e; intros [= <- <-]];
    by eapply evolves_getitem.
Qed.

Lemma evolves_cleanup k s r s' :
  cleanup clock s = (r, s') -> evolves clock k s s'.
Proof.
  destruct s as [n c].
  destruct (cleanup_spec clock n c) as (c' & -> & Httl & Hk).
  intros [= <- <-]. specialize (Hk k).
  split_and!; simpl; [lia | done |].
  destruct (dict_get k (_store c)) as [[v e] |] eqn:Hg.
  - destruct Hk as [[Hk _] | [Hk (i & Hi & Hlt)]]; [by left |].
    right. exists v, e, (n + i)%nat. split_and!; [done | done | lia | lia | done].
  - by left.
Qed.

Lemma evolves_iter k s r s' : __iter__ clock s = (r, s') -> evolves clock k s s'.
Proof.
  unfold __iter__. munfold.
  destruct (cleanup clock s) as [[[] | e] s1] eqn:Hc; intros [= <- <-];
    by eapply evolves_cleanup.
Qed.

Lemma evolves_len k s r s' : __len__ clock s = (r, s') -> evolves clock k s s'.
Proof.
  unfold __len__. munfold.
  destruct (cleanup clock s) as [[[] | e] s1] eqn:Hc; intros [= <- <-];
    by eapply evolves_cleanup.
Qed.

Lemma evolves_run_op k op s r s' :
  writes_key k op = false -> run_op clock op s = (r, s') -> evolves clock k s s'.
Proof.
  destruct op as [key v ttl | key v | key d | key | key | key | | |];
    simpl; intros Hw Hrun.
  - apply bool_decide_eq_false in Hw. by eapply evolves_set.
  - apply bool_decide_eq_false in Hw. destruct s as [n c].
    rewrite setitem_eq in Hrun. by eapply evolves_set.
  - revert Hrun. munfold.
    destruct (get clock key d s) as [[o | e] s1] eqn:Hc; intros [= <- <-];
      by eapply evolves_get.
  - revert Hrun. munfold.
    destruct (__getitem__ clock key s) as [[o | e] s1] eqn:Hc;
      intros [= <- <-]; by eapply evolves_getitem.
  - apply bool_decide_eq_false in Hw. by eapply evolves_delitem.
  - revert Hrun. munfold.
    destruct (__contains__ clock key s) as [[o | e] s1] eqn:Hc;
      intros [= <- <-]; by eapply evolves_contains.
  - by eapply evolves_cleanup.
  - revert Hrun. munfold.
    destruct (__iter__ clock s) as [[o | e] s1] eqn:Hc;
      intros [= <- <-]; by eapply evolves_iter.
  - revert Hrun. munfold.
    destruct (__len__ clock s) as [[o | e] s1] eqn:Hc;
      intros [= <- <-]; by eapply evolves_len.
Qed.

Lemma evolves_run_ops k ops s r s' :
  forallb (fun op => negb (writes_key k op)) ops = true ->
  run_ops clock ops s = (r, s') -> r = Ok tt /\ evolves clock k s s'.
Proof.
  unfold run_ops. revert s. induction ops as [| op ops IH]; intros s; simpl.
  - intros _ [= <- <-]. split; [done | apply evolves_refl].
  - intros [Hop Hops]%andb_true_iff. apply negb_true_iff in Hop.
    munfold.
    destruct (run_op clock op s) as [[[] | e] s1] eqn:Hrun; intros Hrest;
      apply IH in Hrest as [-> Hev]; try done;
      (split; [done |]); eapply evolves_trans; eauto using evolves_run_op.
Qed.

End Evolves.

(** ** The match predicate *)

Lemma spends_watched_dec watched vin :
  {spends_watched watched vin} + {~ spends_watched watched vin}.
Proof.
  destruct (vin_txid vin) as [t |] eqn:Ht; [| right; intros (? & ? & ? & _); congruence].
  destruct (vin_vout vin) as [i |] eqn:Hi;
    [| right; intros (? & ? & ? & ? & _); congruence].
  destruct (decide ((t, i) ∈ watched)) as [Hin | Hnin].
  - left. by exists t, i.
  - right. intros (t' & i' & Ht' & Hi' & Hin). congruence.
Defined.

Lemma scan_inputs_cons watched vin rest :
  scan_inputs watched (vin :: rest)
  = if spends_watched_dec watched vin then (true, 1%nat)
    else ((scan_inputs watched rest).1, S (scan_inputs watched rest).2).
Proof.
  simpl. destruct (spends_watched_dec watched vin) as [Hs | Hn].
  - destruct Hs as (t & i & -> & -> & Hin). by rewrite decide_True.
  - destruct (vin_txid vin) as [t |] eqn:Ht; [| done].
    destruct (vin_vout vin) as [i |] eqn:Hi; [| done].
    rewrite decide_False; [done |]. intros Hin. apply Hn. by exists t, i.
Qed.

Lemma scan_inputs_no_match watched vins :
  (forall vin, vin ∈ vins -> ~ spends_watched watched vin) ->
  scan_inputs watched vins = (false, length vins).
Proof.
  induction vins as [| vin rest IH]; intros Hno; [done |].
  rewrite scan_inputs_cons.
  destruct (spends_watched_dec watched vin) as [Hs | _].
  - exfalso. by apply (Hno vin); [left |].
  - rewrite IH; [done |]. intros u Hu. apply Hno. by right.
Qed.

Lemma scan_inputs_first_match watched pre vin post :
  (forall u, u ∈ pre -> ~ spends_watched watched u) ->
  spends_watched watched vin ->
  scan_inputs watched (pre ++ vin :: post) = (true, S (length pre)).
Proof.
  induction pre as [| u pre IH]; intros Hno Hs.
  - simpl app. rewrite scan_inputs_cons.
    by destruct (spends_watched_dec watched vin).
  - change ((u :: pre) ++ vin :: post) with (u :: (pre ++ vin :: post)).
    rewrite scan_inputs_cons.
    destruct (spends_watched_dec watched u) as [Hu | _].
    + exfalso. by apply (Hno u); [left |].
    + rewrite IH; [done | | done]. intros u' Hu'. apply Hno. by right.
Qed.

Lemma scan_inputs_true watched vins :
  (scan_inputs watched vins).1 = true
  <-> exists vin, vin ∈ vins /\ spends_watched watched vin.
Proof.
  induction vins as [| vin rest IH].
  - split; [done | by intros (? & ?%elem_of_nil & _)].
  - rewrite scan_inputs_cons.
    destruct (spends_watched_dec watched vin) as [Hs | Hn]; simpl.
    + split; [intros _ | done]. exists vin. split; [by left | done].
    + rewrite IH. split.
      * intros (u & Hu & Hs). exists u. split; [by right | done].
      * intros (u & [-> | Hu]%elem_of_cons & Hs); [done | eauto].
Qed.

(** ** The watch-list loader *)

Lemma load_lines_bad_line acc good bad rest e :
  (forall line, line ∈ good -> exists p, parse_line line = Ok p) ->
  parse_line bad = Raise e ->
  load_lines acc (good ++ bad :: rest) = Raise e.
Proof.
  intros Hgood Hbad. revert acc.
  induction good as [| line good IH]; intros acc; simpl.
  - by rewrite Hbad.
  - destruct (Hgood line) as [[p |] ->]; [by left | |];
      apply IH; intros; apply Hgood; by right.
Qed.

(** ** Traces *)

Lemma fetches_app txid tr1 tr2 :
  fetches txid (tr1 ++ tr2) = (fetches txid tr1 + fetches txid tr2)%nat.
Proof. induction tr1 as [| ev tr1 IH]; simpl; [done | rewrite IH; lia]. Qed.

Lemma is_fetch_true txid ev :
  is_fetch txid ev = true <-> ev = EvRpc "getrawtransaction" [txid; "True"].
Proof.
  destruct ev as [| method params | | | |]; simpl; try (split; [done | by intros ?]).
  rewrite andb_true_iff, !bool_decide_eq_true.
  split; [by intros [-> ->] | by intros [= -> ->]].
Qed.

Lemma is_fetch_other txid x :
  x <> txid -> is_fetch txid (EvRpc "getrawtransaction" [x; "True"]) = false.
Proof.
  intros Hne. apply not_true_iff_false. rewrite is_fetch_true.
  intros [= ->]. done.
Qed.

Lemma is_fetch_listing txid : is_fetch txid (EvRpc "getrawmempool" []) = false.
Proof. reflexivity. Qed.

Lemma leaves_alone_refl clock txid w : leaves_alone clock txid w w.
Proof.
  split_and!; [apply evolves_refl | done |].
  exists []. by rewrite app_nil_r.
Qed.

Lemma leaves_alone_trans clock txid w1 w2 w3 :
  leaves_alone clock txid w1 w2 -> leaves_alone clock txid w2 w3 ->
  leaves_alone clock txid w1 w3.
Proof.
  intros (He1 & Hw1 & evs1 & Ht1 & Hf1) (He2 & Hw2 & evs2 & Ht2 & Hf2).
  split_and!; [by eapply evolves_trans | congruence |].
  exists (evs1 ++ evs2). rewrite Ht2, Ht1, <- app_assoc, fetches_app.
  split; [done | lia].
Qed.

(** ** The methods of the poller, evaluated *)

Section WatcherFacts.
Variable cfg : Config.
Variable env : Env.
Local Abbreviation clock := (env_clock env).
Implicit Types (w : World) (txid id : string).

Lemma load_eq w :
  _load_watched_outputs cfg env w
  = (match env_open env (w_opens w) with
     | Ok lines => load_lines ∅ lines
     | Raise e => Raise e
     end,
     emit (EvOpen (outputs_file cfg)) (incr_opens w)).
Proof.
  unfold _load_watched_outputs. munfold.
  destruct (env_open env (w_opens w)) as [lines | e]; [| done].
  by destruct (load_lines ∅ lines).
Qed.

Lemma rpc_call_eq {A} method params (oracle : nat -> Res (HttpResponse A)) w :
  _rpc_call method params oracle w
  = (rpc_outcome (oracle (w_rpcs w)), emit (EvRpc method params) (incr_rpcs w)).
Proof.
  unfold _rpc_call, rpc_outcome. munfold.
  destruct (oracle (w_rpcs w)) as [response | e]; [| done].
  destruct (decide (status_code response ≠ 200%Z)); [done |].
  by destruct (json_result response).
Qed.

Lemma dump_eq tx w :
  _dump_transaction cfg env tx w
  = let txid := default "unknown_txid" (tx_txid tx) in
    let filepath := path_join (dump_folder cfg) (txid +:+ ".json") in
    match env_write env (w_writes w) with
    | Some e => (Raise e, incr_writes w)
    | None =>
        (Ok tt,
         emit (EvPrint (MsgDumped txid filepath))
           (emit (EvWrite filepath tx)
              (set_files (<[filepath := tx]> (w_files w)) (incr_writes w))))
    end.
Proof.
  unfold _dump_transaction, print. munfold. cbv zeta.
  by destruct (env_write env (w_writes w)).
Qed.

(** The fetch-and-match step never raises, leaves the cache, the clock and
    the watch-list alone, and posts exactly one request. *)
Lemma fetch_and_match_spec txid w :
  exists w' evs,
    fetch_and_match cfg env txid w = (Ok tt, w')
    /\ cache w' = cache w
    /\ w_ticks w' = w_ticks w
    /\ watched_outputs w' = watched_outputs w
    /\ w_trace w' = w_trace w ++ EvRpc "getrawtransaction" [txid; "True"] :: evs
    /\ forall id, fetches id evs = 0%nat.
Proof.
  unfold fetch_and_match, print. munfold. rewrite rpc_call_eq.
  destruct (rpc_outcome (env_getrawtransaction env (w_rpcs w) txid))
    as [raw_tx | e].
  - cbn [watched_outputs emit incr_rpcs].
    destruct (_tx_spends_watched_outputs (watched_outputs w) raw_tx).
    + rewrite dump_eq. cbv zeta.
      destruct (env_write env _) as [e |]; eexists _, _;
        (split; [reflexivity |]); cbn;
        (split_and!;
           [done | done | done | rewrite <- ?app_assoc; reflexivity | done]).
    + eexists _, []. split; [reflexivity |]. by cbn.
  - eexists _, _. split; [reflexivity |]. cbn.
    split_and!; [done | done | done | rewrite <- app_assoc; reflexivity | done].
Qed.

Lemma fetch_and_match_raise txid w e :
  rpc_outcome (env_getrawtransaction env (w_rpcs w) txid) = Raise e ->
  fetch_and_match cfg env txid w
  = (Ok tt,
     emit (EvPrint (MsgFetchError txid e))
       (emit (EvRpc "getrawtransaction" [txid; "True"]) (incr_rpcs w))).
Proof.
  intros He. unfold fetch_and_match, print. munfold.
  by rewrite rpc_call_eq, He.
Qed.

Lemma on_cache_eq {A} (m : M (CacheSt string bool) A) w r n c :
  m (w_ticks w, cache w) = (r, (n, c)) ->
  on_cache m w = (r, set_cache_ticks c n w).
Proof. intros Hm. unfold on_cache. by rewrite Hm. Qed.

Lemma process_txid_seen txid w n c :
  __contains__ clock txid (w_ticks w, cache w) = (Ok true, (n, c)) ->
  process_txid cfg env txid w = (Ok tt, set_cache_ticks c n w).
Proof.
  intros Hc. unfold process_txid. munfold. by rewrite (on_cache_eq _ _ _ _ _ Hc).
Qed.

Lemma process_txid_unseen txid w n c :
  __contains__ clock txid (w_ticks w, cache w) = (Ok false, (n, c)) ->
  exists w2 evs,
    process_txid cfg env txid w
    = (Ok tt,
       set_cache_ticks
         (mkCache (dict_set txid (true, clock n + inject_Z (_default_ttl c))
                            (_store c))
                  (_default_ttl c))
         (S n) w2)
    /\ fetch_and_match cfg env txid (set_cache_ticks c n w) = (Ok tt, w2)
    /\ watched_outputs w2 = watched_outputs w
    /\ w_trace w2 = w_trace w ++ EvRpc "getrawtransaction" [txid; "True"] :: evs
    /\ forall id, fetches id evs = 0%nat.
Proof.
  intros Hc. unfold process_txid. munfold. rewrite (on_cache_eq _ _ _ _ _ Hc).
  destruct (fetch_and_match_spec txid (set_cache_ticks c n w))
    as (w2 & evs & Hfm & Hcache & Hticks & Hwo & Htr & Hev).
  rewrite Hfm.
  exists w2, evs. split_and!; [| done | done | done | done].
  erewrite on_cache_eq; [reflexivity |].
  rewrite Hcache, Hticks. cbn [cache w_ticks set_cache_ticks].
  by rewrite set_eq.
Qed.

(** [__contains__] never raises. *)
Lemma contains_total (k : string) n (c : Cache string bool) :
  exists b n' c', __contains__ clock k (n, c) = (Ok b, (n', c')).
Proof.
  destruct (dict_get k (_store c)) as [[v e] |] eqn:Hg.
  - rewrite (contains_present _ _ _ _ _ _ Hg).
    destruct (Qgt_bool (clock n) e); eauto.
  - rewrite (contains_absent _ _ _ _ Hg). eauto.
Qed.

(** Processing a candidate other than [id]. *)
Lemma process_txid_other id txid w r w' :
  txid <> id ->
  process_txid cfg env txid w = (r, w') ->
  r = Ok tt /\ leaves_alone clock id w w'.
Proof.
  intros Hne.
  destruct (contains_total txid (w_ticks w) (cache w)) as (b & n & c & Hc).
  pose proof (evolves_contains clock id _ _ _ _ Hc) as Hev.
  destruct b.
  - rewrite (process_txid_seen _ _ _ _ Hc). intros [= <- <-].
    split; [done |]. split_and!; [done | done |].
    exists []. by rewrite app_nil_r.
  - destruct (process_txid_unseen _ _ _ _ Hc)
      as (w2 & evs & -> & _ & Hwo & Htr & Hevs).
    intros [= <- <-]. split; [done |]. split_and!.
    + eapply evolves_trans; [exact Hev |].
      eapply (evolves_set clock id txid true None (n, c)); [done |].
      by rewrite set_eq.
    + done.
    + exists (EvRpc "getrawtransaction" [txid; "True"] :: evs).
      split; [done |]. cbn [fetches]. by rewrite is_fetch_other, Hevs.
Qed.

(** Processing any candidate: it never raises, the clock does not go back,
    the watch-list stays, and at most one fetch is added, of that candidate. *)
Lemma process_txid_any txid w :
  exists w' evs,
    process_txid cfg env txid w = (Ok tt, w')
    /\ (w_ticks w <= w_ticks w')%nat
    /\ _default_ttl (cache w') = _default_ttl (cache w)
    /\ watched_outputs w' = watched_outputs w
    /\ w_trace w' = w_trace w ++ evs
    /\ (fetches txid evs <= 1)%nat.
Proof.
  destruct (contains_total txid (w_ticks w) (cache w)) as (b & n & c & Hc).
  pose proof (evolves_contains clock txid _ _ _ _ Hc) as (Hle & Httl & _).
  cbn [fst snd] in Hle, Httl.
  destruct b.
  - rewrite (process_txid_seen _ _ _ _ Hc).
    exists (set_cache_ticks c n w), [].
    split_and!; [done | done | done | done | by rewrite app_nil_r | cbn; lia].
  - destruct (process_txid_unseen _ _ _ _ Hc)
      as (w2 & evs & -> & _ & Hwo & Htr & Hevs).
    eexists _, (EvRpc "getrawtransaction" [txid; "True"] :: evs).
    split_and!; [reflexivity | cbn; lia | done | done | done |].
    cbn [fetches]. rewrite Hevs. destruct (is_fetch _ _); lia.
Qed.


Lemma leaves_alone_ticks id w w' :
  leaves_alone clock id w w' -> (w_ticks w <= w_ticks w')%nat.
Proof. by intros ((Hle & _) & _). Qed.



Lemma leaves_alone_entry id w w' :
  leaves_alone clock id w w' ->
  cache_entry w' id = cache_entry w id \/ cache_entry w' id = None.
Proof.
  intros ((_ & _ & Hk) & _). cbn [fst snd] in Hk. unfold cache_entry.
  destruct Hk as [Hk | (? & ? & ? & _ & Hk & _)]; eauto.
Qed.

(** ** The loop over the candidates *)

Lemma for_each_process_any (l : list string) w :
  exists w' evs,
    for_each l (process_txid cfg env) w = (Ok tt, w')
    /\ (w_ticks w <= w_ticks w')%nat
    /\ _default_ttl (cache w') = _default_ttl (cache w)
    /\ watched_outputs w' = watched_outputs w
    /\ w_trace w' = w_trace w ++ evs.
Proof.
  revert w. induction l as [| x l IH]; intros w.
  - exists w, []. simpl. by rewrite app_nil_r.
  - destruct (process_txid_any x w) as (w1 & evs1 & Hx & Hle1 & Ht1 & Hw1 & Htr1 & _).
    destruct (IH w1) as (w' & evs & Hl & Hle & Ht & Hw & Htr).
    exists w', (evs1 ++ evs). simpl. munfold. rewrite Hx, Hl.
    split_and!; [done | lia | congruence | congruence |].
    by rewrite Htr, Htr1, <- app_assoc.
Qed.

Lemma for_each_process_absent id (l : list string) w :
  id ∉ l ->
  exists w',
    for_each l (process_txid cfg env) w = (Ok tt, w')
    /\ leaves_alone clock id w w'.
Proof.
  revert w. induction l as [| x l IH]; intros w Hnin.
  - exists w. split; [done | apply leaves_alone_refl].
  - apply not_elem_of_cons in Hnin as [Hne Hnin].
    destruct (process_txid_any x w) as (w1 & evs1 & Hx & _).
    destruct (process_txid_other id x w _ _ (not_eq_sym Hne) Hx) as [_ H1].
    destruct (IH w1 Hnin) as (w' & Hl & H2).
    exists w'. simpl. munfold. rewrite Hx, Hl.
    split; [done | by eapply leaves_alone_trans].
Qed.





(** ** A whole scan of the mempool *)

Lemma cleanup_world w :
  exists w',
    on_cache (cleanup clock) w = (Ok tt, w')
    /\ w_trace w' = w_trace w
    /\ watched_outputs w' = watched_outputs w
    /\ forall id, leaves_alone clock id w w'.
Proof.
  destruct (cleanup_spec clock (w_ticks w) (cache w)) as (c' & Hrun & _).
  eexists. split; [by apply on_cache_eq |]. cbn. split_and!; [done | done |].
  intros id. split_and!; cbn.
  - by eapply evolves_cleanup.
  - done.
  - exists []. by rewrite app_nil_r.
Qed.

Lemma process_mempool_cases w r w' :
  _process_mempool cfg env w = (r, w') ->
  let wa := emit (EvRpc "getrawmempool" []) (incr_rpcs w) in
  match rpc_outcome (env_getrawmempool env (w_rpcs w)) with
  | Raise e => r = Raise e /\ w' = wa
  | Ok txids =>
      r = Ok tt
      /\ exists wb,
           for_each txids (process_txid cfg env) wa = (Ok tt, wb)
           /\ on_cache (cleanup clock) wb = (Ok tt, w')
  end.
Proof.
  unfold _process_mempool. munfold. rewrite rpc_call_eq. cbv zeta.
  destruct (rpc_outcome (env_getrawmempool env (w_rpcs w))) as [txids | e].
  - destruct (for_each_process_any txids
                (emit (EvRpc "getrawmempool" []) (incr_rpcs w)))
      as (wb & evs & -> & _).
    destruct (cleanup_world wb) as (wc & Hc & _). rewrite Hc.
    intros [= <- <-]. eauto.
  - by intros [= <- <-].
Qed.

Lemma process_mempool_watched w r w' :
  _process_mempool cfg env w = (r, w') ->
  watched_outputs w' = watched_outputs w.
Proof.
  intros Hrun%process_mempool_cases. cbv zeta in Hrun.
  destruct (rpc_outcome _) as [txids | e].
  - destruct Hrun as (_ & wb & Hl & Hc).
    destruct (for_each_process_any txids
                (emit (EvRpc "getrawmempool" []) (incr_rpcs w)))
      as (wb' & evs & Hl' & _ & _ & Hw & _).
    assert (wb' = wb) as -> by congruence.
    destruct (cleanup_world wb) as (wc & Hc' & _ & Hw' & _).
    assert (wc = w') as -> by congruence. by rewrite Hw', Hw.
  - by destruct Hrun as [_ ->].
Qed.

Lemma leaves_alone_emit id ev w :
  is_fetch id ev = false -> leaves_alone clock id w (emit ev w).
Proof.
  intros Hev. split_and!; [apply evolves_refl | done |].
  exists [ev]. split; [done |]. cbn. by rewrite Hev.
Qed.




(** ** One cycle *)

Lemma run_cycle_cases w r w' :
  run_cycle cfg env w = (r, w') ->
  let w1 := emit (EvOpen (outputs_file cfg)) (incr_opens w) in
  match (match env_open env (w_opens w) with
         | Ok lines => load_lines ∅ lines
         | Raise e => Raise e
         end) with
  | Raise e => r = Raise e /\ w' = w1
  | Ok wo =>
      r = Ok tt
      /\ exists r3 w3,
           _process_mempool cfg env
             (emit (EvPrint (MsgWatching (size wo))) (set_watched_outputs wo w1))
           = (r3, w3)
           /\ silent w3 w'
           /\ watched_outputs w' = watched_outputs w3
  end.
Proof.
  unfold run_cycle, print, time_sleep. munfold. rewrite load_eq. cbv zeta.
  destruct (match env_open env (w_opens w) with
            | Ok lines => load_lines ∅ lines
            | Raise e => Raise e
            end) as [wo | e]; [| by intros [= <- <-]].
  destruct (_process_mempool cfg env _) as [[[] | e3] w3] eqn:Hpm;
    intros [= <- <-]; (split; [done |]); eexists _, w3;
    (split; [reflexivity |]); (split; [| done]); (split_and!; [done | done |]).
  - eexists [_; _]. cbn. rewrite <- !app_assoc. split; [reflexivity | done].
  - eexists [_; _; _]. cbn. rewrite <- !app_assoc. split; [reflexivity | done].
Qed.

End WatcherFacts.

Section CycleFacts.
Variable cfg : Config.
Variable env : Env.
Local Abbreviation clock := (env_clock env).
Implicit Types (w : World) (id : string).


Lemma leaves_alone_fetches id w w' :
  leaves_alone clock id w w' ->
  fetches id (w_trace w') = fetches id (w_trace w).
Proof.
  intros (_ & _ & evs & -> & Hf). rewrite fetches_app, Hf. lia.
Qed.






(** An exception raised by the load leaves [run] at once. *)
Lemma run_load_error_escapes w n e :
  match env_open env (w_opens w) with
  | Ok lines => load_lines ∅ lines
  | Raise e => Raise e
  end = Raise e ->
  run cfg env (S n) w
  = (Raise e, emit (EvOpen (outputs_file cfg)) (incr_opens w)).
Proof.
  intros Hload. simpl. unfold run_cycle. munfold. by rewrite load_eq, Hload.
Qed.

(** An exception raised inside [_process_mempool] does not: as long as the
    loads succeed, [run] is still running after any number of cycles. *)
Lemma run_survives_when_loads_succeed n w :
  (forall k, exists wo, match env_open env k with
                        | Ok lines => load_lines ∅ lines
                        | Raise e => Raise e
                        end = Ok wo) ->
  (run cfg env n w).1 = Ok tt.
Proof.
  intros Hopen. revert w. induction n as [| n IH]; intros w; [done |].
  simpl. munfold.
  destruct (run_cycle cfg env w) as [r w'] eqn:Hc.
  pose proof (run_cycle_cases cfg env _ _ _ Hc) as Hcases. cbv zeta in Hcases.
  destruct (Hopen (w_opens w)) as [wo Hwo]. rewrite Hwo in Hcases.
  destruct Hcases as (-> & _). apply IH.
Qed.

End CycleFacts.

(** ** Claims about the cache *)





(** Past the expiry the key is reported absent: set at second 0 with a
    lifetime of 5, queried at second 10 after a read at second 5. *)
Example contains_false_after_expiry :
  (__contains__ clock5 "k"
     (run_ops clock5 [OpContains "k"]
        (set clock5 "k" true (Some 5%Z) (0%nat, Cache_init 60)).2).2).1
  = Ok false.
Proof. reflexivity. Qed.

(** C5, as amended.  When the clock reads [now] all through a sweep, no
    entry stored afterwards has [expires_at < now], and every entry with
    [expires_at >= now] is still stored with its value and expiry. *)
Theorem cleanup_purges_past_expiry {K V} `{EqDecision K}
    (clock : nat -> Q) (n : nat) (c : Cache K V) (now : Q) :
  (forall i, (i < length (_store c))%nat -> clock (n + i)%nat == now) ->
  exists c',
    cleanup clock (n, c) = (Ok tt, ((n + length (_store c))%nat, c'))
    /\ (forall k v e, dict_get k (_store c') = Some (v, e) -> ~ e < now)
    /\ (forall k v e, dict_get k (_store c) = Some (v, e) -> now <= e ->
                      dict_get k (_store c') = Some (v, e)).
Proof.
  intros Hnow. destruct (cleanup_spec clock n c) as (c' & Hrun & _ & Hk).
  exists c'. split_and!; [done | |].
  - intros k v e Hg' Hlt. specialize (Hk k).
    destruct (dict_get k (_store c)) as [[v0 e0] |] eqn:Hg; [| congruence].
    destruct Hk as [[Hk (i & Hi & Hle)] | [Hk _]]; [| congruence].
    rewrite Hk in Hg'. injection Hg' as <- <-.
    rewrite (Hnow i Hi) in Hle. lra.
  - intros k v e Hg Hle. specialize (Hk k). rewrite Hg in Hk.
    destruct Hk as [[Hk _] | [_ (i & Hi & Hlt)]]; [done |].
    rewrite (Hnow i Hi) in Hlt. lra.
Qed.

Lemma cleanup_purges_past_expiry_witness :
  exists c',
    cleanup clock_at_5 (0%nat, cache_5_9) = (Ok tt, (2%nat, c'))
    /\ (forall k v e, dict_get k (_store c') = Some (v, e) -> ~ e < 5)
    /\ (forall k v e, dict_get k (_store cache_5_9) = Some (v, e) -> 5 <= e ->
                      dict_get k (_store c') = Some (v, e)).
Proof.
  apply (cleanup_purges_past_expiry clock_at_5 0 cache_5_9 5).
  intros i _. reflexivity.
Defined.

(** C5, as stated, fails for an entry that expires exactly now: swept at
    second 5, the entry with [expires_at = 5] stays in the store. *)
Lemma cleanup_keeps_entry_expiring_now :
  dict_get "k" (_store (cleanup clock_at_5 (0%nat, cache_5_9)).2.2)
  = Some (true, 5)
  /\ 5 <= clock_at_5 0.
Proof. split; [reflexivity | vm_compute; discriminate]. Qed.

(** C8.  [set(k, v2, ttl)] on a stored key stores exactly
    [(v2, current time + ttl)] under [k]; the outcome is the same whatever
    value and expiry [k] had before, and [k] keeps its place in the store. *)
Theorem set_replaces_value_and_expiry {K V} `{EqDecision K}
    (clock : nat -> Q) (n : nat) (c : Cache K V) (k : K) (v1 v2 : V) (e1 : Q)
    (ttl : option Z) :
  dict_get k (_store c) = Some (v1, e1) ->
  clock n < e1 ->
  exists c',
    set clock k v2 ttl (n, c) = (Ok tt, (S n, c'))
    /\ dict_get k (_store c') = Some (v2, clock n + inject_Z (ttl_of c ttl))
    /\ dict_keys (_store c') = dict_keys (_store c)
    /\ forall v1' e1',
         set clock k v2 ttl
           (n, mkCache (dict_set k (v1', e1') (_store c)) (_default_ttl c))
         = (Ok tt, (S n, c')).
Proof.
  intros Hg _. eexists. rewrite set_eq. split_and!; [done | | |]; simpl.
  - apply dict_get_set_eq.
  - apply dict_keys_set_present. eauto.
  - intros v1' e1'. rewrite set_eq. simpl. by rewrite dict_set_set.
Qed.

Lemma set_replaces_value_and_expiry_witness :
  exists c',
    set clock5 "j" true (Some 7%Z) (1%nat, cache_5_9) = (Ok tt, (2%nat, c'))
    /\ dict_get "j" (_store c') = Some (true, clock5 1 + inject_Z 7)
    /\ dict_keys (_store c') = dict_keys (_store cache_5_9)
    /\ forall v1' e1',
         set clock5 "j" true (Some 7%Z)
           (1%nat, mkCache (dict_set "j" (v1', e1') (_store cache_5_9))
                           (_default_ttl cache_5_9))
         = (Ok tt, (2%nat, c')).
Proof.
  apply (set_replaces_value_and_expiry clock5 1 cache_5_9 "j" false true 9
           (Some 7%Z)).
  - reflexivity.
  - reflexivity.
Defined.

(** C10.  [del cache[k]] looks at the backing store only: on a key that is
    stored but past its expiry, which [__contains__] reports absent, it
    removes the entry and returns; it raises, and then a [KeyError], exactly
    when the key is not in the backing store. *)
Theorem delitem_ignores_expiry {K V} `{EqDecision K}
    (clock : nat -> Q) (n : nat) (c : Cache K V) (k : K) :
  (forall v e, dict_get k (_store c) = Some (v, e) -> e < clock n ->
     (__contains__ clock k (n, c)).1 = Ok false
     /\ __delitem__ k (n, c)
        = (Ok tt, (n, mkCache (dict_pop k (_store c)) (_default_ttl c))))
  /\ (forall e, (__delitem__ k (n, c)).1 = Raise e ->
        e = KeyError /\ dict_get k (_store c) = None)
  /\ (dict_get k (_store c) = None ->
        __delitem__ k (n, c) = (Raise KeyError, (n, c))).
Proof.
  split_and!.
  - intros v e Hg Hlt. split.
    + rewrite (contains_present _ _ _ _ _ _ Hg).
      apply Qgt_bool_true in Hlt. by rewrite Hlt.
    + unfold __delitem__, store_of. munfold. simpl.
      by rewrite (proj2 (dict_mem_true _ _)) by eauto.
  - intros e. unfold __delitem__, store_of. munfold. simpl.
    destruct (dict_mem k (_store c)) eqn:Hm; simpl; [done |].
    intros [= <-]. split; [done | by apply dict_mem_false].
  - intros Hg. unfold __delitem__, store_of. munfold. simpl.
    by rewrite (proj2 (dict_mem_false _ _)).
Qed.

Lemma delitem_ignores_expiry_witness :
  (__contains__ clock5 "k" (2%nat, cache_5_9)).1 = Ok false
  /\ __delitem__ "k" (2%nat, cache_5_9)
     = (Ok tt, (2%nat, mkCache (dict_pop "k" (_store cache_5_9))
                               (_default_ttl cache_5_9))).
Proof.
  apply (proj1 (delitem_ignores_expiry clock5 2 cache_5_9 "k") true 5).
  - reflexivity.
  - reflexivity.
Defined.

(** ** Claims about the poller *)

(** C1.  [_tx_spends_watched_outputs] returns true exactly when some input
    carries both a spent txid and a spent output index whose pair is in the
    watch-list; inputs lacking either field contribute nothing (dropping them
    changes no answer, and a transaction with only such inputs never
    matches); and the scan returns at the first matching input, having looked
    at no input after it. *)
Theorem tx_spends_watched_outputs_spec
    (watched : gset (string * Z)) (tx : Tx) :
  (_tx_spends_watched_outputs watched tx = true
   <-> exists vin, vin ∈ inputs_of tx /\ spends_watched watched vin)
  /\ (forall vin, vin_txid vin = None \/ vin_vout vin = None ->
        ~ spends_watched watched vin
        /\ forall pre post,
             (scan_inputs watched (pre ++ vin :: post)).1
             = (scan_inputs watched (pre ++ post)).1)
  /\ (forall pre vin post,
        inputs_of tx = pre ++ vin :: post ->
        (forall u, u ∈ pre -> ~ spends_watched watched u) ->
        spends_watched watched vin ->
        scan_inputs watched (inputs_of tx) = (true, S (length pre)))
  /\ ((forall vin, vin ∈ inputs_of tx -> ~ spends_watched watched vin) ->
        scan_inputs watched (inputs_of tx) = (false, length (inputs_of tx))).
Proof.
  split_and!.
  - apply scan_inputs_true.
  - intros vin Hlack.
    assert (~ spends_watched watched vin) as Hn.
    { intros (t & i & Ht & Hi & _). destruct Hlack; congruence. }
    split; [done |]. intros pre post.
    apply eq_true_iff_eq. rewrite !scan_inputs_true. split.
    + intros (u & Hu & Hs). exists u. split; [| done].
      apply elem_of_app in Hu as [Hu | [-> | Hu]%elem_of_cons];
        [| done |]; apply elem_of_app; eauto.
    + intros (u & Hu & Hs). exists u. split; [| done].
      apply elem_of_app in Hu as [Hu | Hu]; apply elem_of_app;
        [by left | right; by right].
  - intros pre vin post -> Hno Hs. by apply scan_inputs_first_match.
  - apply scan_inputs_no_match.
Qed.

Lemma tx_spends_watched_outputs_spec_witness :
  _tx_spends_watched_outputs {[ ("abc123", 0%Z) ]} txB = false
  /\ scan_inputs {[ ("def456", 2%Z) ]} (inputs_of txB) = (true, 2%nat).
Proof.
  pose proof (tx_spends_watched_outputs_spec {[ ("def456", 2%Z) ]} txB)
    as (_ & _ & Hfirst & _).
  split; [reflexivity |].
  apply (Hfirst [mkVin None None] (mkVin (Some "def456") (Some 2%Z)) []).
  - reflexivity.
  - intros u ->%list_elem_of_singleton (t & i & Ht & _). discriminate Ht.
  - exists "def456", 2%Z. split_and!; [done | done | set_solver].
Defined.

(** The example of the specification: inputs [(A, 0)] and [(B, 1)] match a
    watch-list holding [(A, 0)], and match neither one holding only [(A, 1)]
    nor one holding only [(B, 0)]. *)
Example match_example :
  _tx_spends_watched_outputs {[ ("A", 0%Z) ]} tx_AB = true
  /\ _tx_spends_watched_outputs {[ ("A", 1%Z) ]} tx_AB = false
  /\ _tx_spends_watched_outputs {[ ("B", 0%Z) ]} tx_AB = false.
Proof. by vm_compute. Qed.

(** The end-to-end scenario of the specification: after one cycle there is a
    dump file for [txA] holding its full record, none for [txB], and both
    are in the cache. *)
Example end_to_end_scenario :
  w_files world1 = {[ "dumped_txs/txA.json" := txA ]}
  /\ cache_entry world1 "txA" = Some (true, 3600)
  /\ cache_entry world1 "txB" = Some (true, 3605).
Proof. by vm_compute. Qed.



(** After the lifetime has lapsed the fetch is made again: with a lifetime
    of three seconds and readings five seconds apart, two cycles fetch [txA]
    twice. *)
Example refetch_after_ttl :
  fetches "txA" (w_trace (run cfg_short env_scenario 2 (fresh_world cfg_short ∅)).2)
  = 2%nat.
Proof. by vm_compute. Qed.

(** C3, as amended.  A candidate that the cache does not report present is
    marked seen, with the default lifetime counted from the reading taken by
    that [set], after one fetch attempt whatever its outcome; in particular
    when the fetch raises, the error is printed, nothing is dumped, and the
    candidate is marked seen all the same. *)
Theorem marked_seen_whatever_the_fetch
    (cfg : Config) (env : Env) (txid : string) (w : World) :
  (__contains__ (env_clock env) txid (w_ticks w, cache w)).1 = Ok false ->
  exists w' set_tick,
    process_txid cfg env txid w = (Ok tt, w')
    /\ w_ticks w' = S set_tick
    /\ cache_entry w' txid
       = Some (true, env_clock env set_tick + inject_Z (_default_ttl (cache w)))
    /\ fetches txid (w_trace w') = S (fetches txid (w_trace w))
    /\ forall e,
         rpc_outcome (env_getrawtransaction env (w_rpcs w) txid) = Raise e ->
         w_files w' = w_files w
         /\ w_trace w'
            = w_trace w ++ [EvRpc "getrawtransaction" [txid; "True"];
                            EvPrint (MsgFetchError txid e)].
Proof.
  intros Hunseen.
  destruct (__contains__ (env_clock env) txid (w_ticks w, cache w))
    as [r [n c]] eqn:Hc.
  simpl in Hunseen. subst r.
  pose proof (evolves_contains (env_clock env) txid _ _ _ _ Hc) as (_ & Httl & _).
  cbn [fst snd] in Httl.
  destruct (process_txid_unseen cfg env _ _ _ _ Hc)
    as (w2 & evs & Heq & Hfm & _ & Htr & Hevs).
  eexists _, n. split; [exact Heq |]. split_and!.
  - done.
  - unfold cache_entry. cbn. by rewrite dict_get_set_eq, Httl.
  - cbn. rewrite Htr, fetches_app. cbn [fetches].
    rewrite (proj2 (is_fetch_true txid _)) by done. rewrite Hevs. lia.
  - intros e He. rewrite (fetch_and_match_raise cfg env txid _ e) in Hfm by done.
    injection Hfm as <-. cbn. by rewrite <- app_assoc.
Qed.

Lemma marked_seen_whatever_the_fetch_witness :
  exists w' set_tick,
    process_txid cfg0 env_fetch_fails "txB" world0 = (Ok tt, w')
    /\ w_ticks w' = S set_tick
    /\ cache_entry w' "txB"
       = Some (true, clock5 set_tick + inject_Z (_default_ttl (cache world0)))
    /\ fetches "txB" (w_trace w') = S (fetches "txB" (w_trace world0))
    /\ forall e,
         rpc_outcome (env_getrawtransaction env_fetch_fails (w_rpcs world0) "txB")
         = Raise e ->
         w_files w' = w_files world0
         /\ w_trace w'
            = w_trace world0 ++ [EvRpc "getrawtransaction" ["txB"; "True"];
                                 EvPrint (MsgFetchError "txB" e)].
Proof.
  apply (marked_seen_whatever_the_fetch cfg0 env_fetch_fails "txB" world0).
  reflexivity.
Defined.

(** C3, as stated, fails: the fetch of [txB] raises, and after the cycle
    [txB] is in the cache and reported present. *)
Lemma failed_fetch_is_marked_seen :
  let w := (run_cycle cfg0 env_fetch_fails world0).2 in
  rpc_outcome (env_getrawtransaction env_fetch_fails 1 "txB") = Raise RuntimeError
  /\ In (EvPrint (MsgFetchError "txB" RuntimeError)) (w_trace w)
  /\ cache_entry w "txB" = Some (true, 3605)
  /\ (__contains__ clock5 "txB" (w_ticks w, cache w)).1 = Ok true.
Proof. vm_compute. repeat split; auto 10. Qed.

(** C7.  A load that raises, whether on opening the file or on a line after
    some good ones, makes the cycle raise with [self.watched_outputs] as it
    was; a load that succeeds replaces it by the set built from the empty
    set, which is the watch-list for the whole cycle. *)
Theorem load_is_all_or_nothing (cfg : Config) (env : Env) (w : World) :
  (forall e w1,
     _load_watched_outputs cfg env w = (Raise e, w1) ->
     run_cycle cfg env w = (Raise e, w1)
     /\ watched_outputs w1 = watched_outputs w)
  /\ (forall good bad rest e,
        env_open env (w_opens w) = Ok (good ++ bad :: rest) ->
        (forall line, line ∈ good -> exists p, parse_line line = Ok p) ->
        parse_line bad = Raise e ->
        exists w1, _load_watched_outputs cfg env w = (Raise e, w1))
  /\ (forall fresh w1 r w2,
        _load_watched_outputs cfg env w = (Ok fresh, w1) ->
        run_cycle cfg env w = (r, w2) ->
        (exists lines, env_open env (w_opens w) = Ok lines
                       /\ load_lines ∅ lines = Ok fresh)
        /\ r = Ok tt
        /\ watched_outputs w2 = fresh).
Proof.
  split_and!.
  - intros e w1. rewrite load_eq. intros [= Hload <-].
    split; [| done].
    unfold run_cycle. munfold. by rewrite load_eq, Hload.
  - intros good bad rest e Hopen Hgood Hbad.
    rewrite load_eq, Hopen. eexists. f_equal.
    by apply load_lines_bad_line.
  - intros fresh w1 r w2. rewrite load_eq. intros [= Hload <-] Hrun.
    apply run_cycle_cases in Hrun. cbv zeta in Hrun. rewrite Hload in Hrun.
    destruct Hrun as (-> & r3 & w3 & Hpm & _ & Hwo).
    apply process_mempool_watched in Hpm. split_and!; [| done |].
    + destruct (env_open env (w_opens w)) as [lines | e]; [eauto | done].
    + by rewrite Hwo, Hpm.
Qed.

Lemma load_is_all_or_nothing_witness :
  let w := (main cfg0 env_bad_line 1 (fresh_world cfg0 ∅)).2 in
  exists w1,
    _load_watched_outputs cfg0 env_bad_line w = (Raise ValueError, w1)
    /\ run_cycle cfg0 env_bad_line w = (Raise ValueError, w1)
    /\ watched_outputs w1 = watched_outputs w.
Proof.
  intros w.
  pose proof (load_is_all_or_nothing cfg0 env_bad_line w) as (Hfail & Hline & _).
  destruct (Hline (outputs_lines ++ ["def456,2" +:+ newline]) "garbage" []
              ValueError) as [w1 Hload].
  - vm_compute. reflexivity.
  - intros line Hin. apply list_elem_of_In in Hin. vm_compute in Hin.
    destruct Hin as [<- | [<- | [<- | []]]]; by eexists.
  - reflexivity.
  - exists w1. split; [done |]. by apply Hfail.
Defined.

(** C9.  A record without ["txid"] is written to [unknown_txid.json] in the
    dump folder; a second such record goes to the same file and replaces the
    first, the rest of the folder staying as it was. *)
Theorem dump_without_txid_overwrites
    (cfg : Config) (env : Env) (tx1 tx2 : Tx) (w : World) :
  tx_txid tx1 = None ->
  tx_txid tx2 = None ->
  env_write env (w_writes w) = None ->
  env_write env (S (w_writes w)) = None ->
  let filepath := path_join (dump_folder cfg) "unknown_txid.json" in
  exists w1 w2,
    _dump_transaction cfg env tx1 w = (Ok tt, w1)
    /\ w_files w1 = <[filepath := tx1]> (w_files w)
    /\ _dump_transaction cfg env tx2 w1 = (Ok tt, w2)
    /\ w_files w2 = <[filepath := tx2]> (w_files w)
    /\ w_files w2 !! filepath = Some tx2.
Proof.
  intros Hno1 Hno2 Hw1 Hw2 filepath.
  rewrite dump_eq, Hno1, Hw1. cbv zeta. cbn [default].
  eexists _, _. split; [reflexivity |]. split; [reflexivity |].
  rewrite dump_eq, Hno2. cbv zeta. cbn. rewrite Hw2.
  split; [reflexivity |]. cbn. fold filepath.
  split; [apply insert_insert_eq | apply lookup_insert_eq].
Qed.

Lemma dump_without_txid_overwrites_witness :
  exists w1 w2,
    _dump_transaction cfg0 env_scenario (tx_anonymous "first") world1 = (Ok tt, w1)
    /\ w_files w1
       = <[path_join "dumped_txs" "unknown_txid.json" := tx_anonymous "first"]>
           (w_files world1)
    /\ _dump_transaction cfg0 env_scenario (tx_anonymous "second") w1 = (Ok tt, w2)
    /\ w_files w2
       = <[path_join "dumped_txs" "unknown_txid.json" := tx_anonymous "second"]>
           (w_files world1)
    /\ w_files w2 !! path_join "dumped_txs" "unknown_txid.json"
       = Some (tx_anonymous "second").
Proof.
  apply (dump_without_txid_overwrites cfg0 env_scenario (tx_anonymous "first")
           (tx_anonymous "second") world1); reflexivity.
Defined.

(** C2, which the code does not meet: a load error in a cycle should be
    caught and reported, and the loop should go on to sleep and retry.  Here
    the outputs file has gone by the second cycle, and the
    [FileNotFoundError] raised by the load leaves [run]: nothing is printed
    for it and the loop neither sleeps nor retries, however many cycles were
    to follow.  The trace ends with the failed opening of the file. *)
Theorem run_exits_on_load_error :
  let end_state := main cfg0 env_file_removed 5 (fresh_world cfg0 ∅) in
  end_state.1 = Raise FileNotFoundError
  /\ w_trace end_state.2
     = [EvOpen "outputs.txt"; EvMakedirs "dumped_txs";
        EvOpen "outputs.txt"; EvPrint (MsgWatching 1);
        EvRpc "getrawmempool" [];
        EvRpc "getrawtransaction" ["txA"; "True"];
        EvWrite "dumped_txs/txA.json" txA;
        EvPrint (MsgDumped "txA" "dumped_txs/txA.json");
        EvRpc "getrawtransaction" ["txB"; "True"];
        EvPrint (MsgSleeping 180); EvSleep 180;
        EvOpen "outputs.txt"].
Proof. by vm_compute. Qed.

(** The same with a malformed line instead of a missing file: the
    [ValueError] leaves [run]. *)
Example run_exits_on_bad_line :
  (main cfg0 env_bad_line 5 (fresh_world cfg0 ∅)).1 = Raise ValueError.
Proof. by vm_compute. Qed.

(** The isolated fetch failure of the specification: the fetch of [txB]
    raises, [txA] is dumped all the same and the cycle completes. *)
Example isolated_fetch_failure :
  let end_state := run_cycle cfg0 env_fetch_fails world0 in
  end_state.1 = Ok tt
  /\ w_files end_state.2 = {[ "dumped_txs/txA.json" := txA ]}.
Proof. by vm_compute. Qed.

(** * Further properties of the cache *)

Lemma Qgt_bool_compat (x x' e : Q) : x == x' -> Qgt_bool x e = Qgt_bool x' e.
Proof.
  intros Hx. destruct (Qgt_bool x' e) eqn:E.
  - apply Qgt_bool_true. apply Qgt_bool_true in E. by rewrite Hx.
  - apply Qgt_bool_false. apply Qgt_bool_false in E. by rewrite Hx.
Qed.

Lemma list_filter_iff_in {A} (P Q : A -> Prop)
    `{!forall x, Decision (P x)} `{!forall x, Decision (Q x)} (l : list A) :
  (forall x, x ∈ l -> (P x <-> Q x)) -> filter P l = filter Q l.
Proof.
  induction l as [| x l IH]; intros Hl; [done |].
  rewrite !filter_cons.
  destruct (decide (P x)) as [Hp | Hp]; destruct (decide (Q x)) as [Hq | Hq].
  - f_equal. apply IH. intros; apply Hl; by right.
  - exfalso. apply Hq, Hl; [by left | done].
  - exfalso. apply Hp, Hl; [by left | done].
  - apply IH. intros; apply Hl; by right.
Qed.

Section MoreDict.
Context {K A : Type} `{EqDecision K}.
Implicit Types (d : dict K A) (k : K).

Lemma dict_pop_absent k d : dict_get k d = None -> dict_pop k d = d.
Proof.
  induction d as [| [k' a'] d IH]; simpl; [done |].
  destruct (decide (k' = k)); [done |]. intros Hg. by rewrite IH.
Qed.

Lemma dict_keys_pop k d :
  dict_keys (dict_pop k d) = filter (fun k' => k' <> k) (dict_keys d).
Proof.
  unfold dict_keys. induction d as [| [k' a'] d IH]; simpl; [done |].
  destruct (decide (k' = k)) as [-> | Hne].
  - rewrite filter_cons_False by (intros Hk; by apply Hk). exact IH.
  - rewrite filter_cons_True by done. simpl. f_equal. exact IH.
Qed.

Lemma dict_keys_pop_all (ks : list K) d :
  dict_keys (foldl (fun acc key => dict_pop key acc) d ks)
  = filter (fun k => k ∉ ks) (dict_keys d).
Proof.
  revert d. induction ks as [| k0 ks IH]; intros d.
  - simpl. symmetry. induction (dict_keys d) as [| k l IHl]; [done |].
    rewrite filter_cons_True by apply not_elem_of_nil. by rewrite IHl.
  - change (foldl (fun acc key => dict_pop key acc) d (k0 :: ks))
      with (foldl (fun acc key => dict_pop key acc) (dict_pop k0 d) ks).
    rewrite IH, dict_keys_pop, list_filter_filter.
    apply list_filter_iff. intros k. rewrite not_elem_of_cons. tauto.
Qed.

Lemma dict_keys_set_absent k a d :
  dict_get k d = None -> dict_keys (dict_set k a d) = dict_keys d ++ [k].
Proof.
  unfold dict_keys. induction d as [| [k' a'] d IH]; simpl; [done |].
  destruct (decide (k' = k)); [done |]. intros Hg. simpl. f_equal. by apply IH.
Qed.

End MoreDict.

Section MoreCache.
Context {K V : Type} `{EqDecision K}.
Variable clock : nat -> Q.
Implicit Types (c : Cache K V) (k key : K) (n : nat).

Lemma get_eq key default n c :
  get clock key default (n, c)
  = match __getitem__ clock key (n, c) with
    | (Ok v, s) => (Ok (Some v), s)
    | (Raise KeyError, s) => (Ok default, s)
    | (Raise e, s) => (Raise e, s)
    end.
Proof.
  unfold get. munfold.
  destruct (__getitem__ clock key (n, c)) as [[v | e] s]; [done |].
  by destruct e.
Qed.

(** The keys [cleanup] selects when the clock reads [now] throughout. *)
Lemma cleanup_keys n c now :
  (forall i, (i < length (_store c))%nat -> clock (n + i)%nat == now) ->
  exists c',
    cleanup clock (n, c) = (Ok tt, ((n + length (_store c))%nat, c'))
    /\ _default_ttl c' = _default_ttl c
    /\ dict_keys (_store c')
       = filter (fun k => live now (_store c) k) (dict_keys (_store c))
    /\ forall k, dict_get k (_store c')
                 = if live now (_store c) k then dict_get k (_store c) else None.
Proof.
  intros Hnow.
  destruct (expired_keys_spec clock (dict_keys (_store c)) n c) as (xs & Hrun & Hxs).
  { intros k. apply dict_get_keys. }
  assert (forall k, k ∈ dict_keys (_store c) ->
                    (k ∉ xs <-> live now (_store c) k)) as Hlive.
  { intros k Hk. unfold live.
    apply dict_get_keys in Hk as [[v e] Hg]. rewrite Hg. split.
    - intros Hnin. apply Is_true_true, negb_true_iff, Qgt_bool_false.
      destruct (Qlt_le_dec e now) as [Hlt | Hle]; [| done].
      exfalso. apply Hnin, Hxs.
      assert (k ∈ dict_keys (_store c)) as Hk by (apply dict_get_keys; eauto).
      apply list_elem_of_lookup in Hk as [i Hi]. exists i, v, e.
      split_and!; [done | done |].
      rewrite Hnow; [done |]. apply lookup_lt_Some in Hi.
      unfold dict_keys in Hi. by rewrite length_fmap in Hi.
    - intros Hl%Is_true_true%negb_true_iff%Qgt_bool_false Hin.
      apply Hxs in Hin as (i & v' & e' & Hi & Hg' & Hlt).
      rewrite Hg in Hg'. injection Hg' as <- <-.
      rewrite Hnow in Hlt; [lra |]. apply lookup_lt_Some in Hi.
      unfold dict_keys in Hi. by rewrite length_fmap in Hi. }
  eexists. split_and!.
  - unfold cleanup, bind, get_state. unfold store_of at 1. simpl. rewrite Hrun.
    rewrite for_each_pop. unfold dict_keys. by rewrite length_fmap.
  - done.
  - simpl. rewrite dict_keys_pop_all. by apply list_filter_iff_in.
  - intros k. simpl. rewrite dict_get_pop_all.
    destruct (dict_get k (_store c)) as [[v e] |] eqn:Hg.
    + assert (k ∈ dict_keys (_store c)) as Hk by (apply dict_get_keys; eauto).
      specialize (Hlive k Hk).
      destruct (decide (k ∈ xs)) as [Hin | Hnin].
      * destruct (live now (_store c) k) eqn:El; [| done].
        exfalso. by apply (proj2 Hlive).
      * apply Hlive in Hnin. apply Is_true_true in Hnin. by rewrite Hnin.
    + unfold live. rewrite Hg. by destruct (decide (k ∈ xs)).
Qed.

End MoreCache.

(** X1.  The three reads of a key agree.  On an entry that is not past its
    expiry, [k in cache] is true, [cache[k]] and [cache.get(k)] give its
    value, and the cache is left as it was.  On a missing key or an entry
    past its expiry, [k in cache] is false, [cache[k]] raises [KeyError],
    [cache.get(k, default)] gives [default], and all three leave the same
    cache, without an entry for [k] and with every other entry intact. *)
Theorem reads_agree {K V} `{EqDecision K}
    (clock : nat -> Q) (n : nat) (c : Cache K V) (k : K) (default : option V) :
  (forall v e,
     dict_get k (_store c) = Some (v, e) -> clock n <= e ->
     __contains__ clock k (n, c) = (Ok true, (S n, c))
     /\ __getitem__ clock k (n, c) = (Ok v, (S n, c))
     /\ get clock k default (n, c) = (Ok (Some v), (S n, c)))
  /\ (dict_get k (_store c) = None
      \/ (exists v e, dict_get k (_store c) = Some (v, e) /\ e < clock n) ->
      exists s',
        __contains__ clock k (n, c) = (Ok false, s')
        /\ __getitem__ clock k (n, c) = (Raise KeyError, s')
        /\ get clock k default (n, c) = (Ok default, s')
        /\ dict_get k (_store s'.2) = None
        /\ _default_ttl s'.2 = _default_ttl c
        /\ forall k', k' <> k ->
             dict_get k' (_store s'.2) = dict_get k' (_store c)).
Proof.
  split.
  - intros v e Hg Hle. apply Qgt_bool_false in Hle.
    rewrite get_eq, (getitem_present _ _ _ _ _ _ Hg),
      (contains_present _ _ _ _ _ _ Hg), Hle. done.
  - intros [Hg | (v & e & Hg & Hlt)].
    + eexists. rewrite get_eq, (getitem_absent _ _ _ _ Hg),
        (contains_absent _ _ _ _ Hg).
      split_and!; try done; simpl.
      * apply dict_get_pop_eq.
      * intros k' Hne. by apply dict_get_pop_ne.
    + apply Qgt_bool_true in Hlt. eexists.
      rewrite get_eq, (getitem_present _ _ _ _ _ _ Hg),
        (contains_present _ _ _ _ _ _ Hg), Hlt.
      split_and!; try done; simpl.
      * apply dict_get_pop_eq.
      * intros k' Hne. by apply dict_get_pop_ne.
Qed.

Lemma reads_agree_witness :
  (__contains__ clock5 "j" (1%nat, cache_jk) = (Ok true, (2%nat, cache_jk))
   /\ __getitem__ clock5 "j" (1%nat, cache_jk) = (Ok false, (2%nat, cache_jk))
   /\ get clock5 "j" None (1%nat, cache_jk) = (Ok (Some false), (2%nat, cache_jk)))
  /\ exists s',
       __contains__ clock5 "k" (2%nat, cache_jk) = (Ok false, s')
       /\ __getitem__ clock5 "k" (2%nat, cache_jk) = (Raise KeyError, s')
       /\ get clock5 "k" (Some false) (2%nat, cache_jk) = (Ok (Some false), s')
       /\ dict_get "k" (_store s'.2) = None
       /\ _default_ttl s'.2 = _default_ttl cache_jk
       /\ forall k', k' <> "k" ->
            dict_get k' (_store s'.2) = dict_get k' (_store cache_jk).
Proof.
  split.
  - apply (proj1 (reads_agree clock5 1 cache_jk "j" None) false 9).
    + reflexivity.
    + vm_compute. discriminate.
  - apply (proj2 (reads_agree clock5 2 cache_jk "k" (Some false))).
    right. exists true, 5. split; reflexivity.
Defined.



(** X3.  A lifetime below zero makes an entry that is never seen: under a
    clock that does not go back, after [set(k, v, ttl)] with a negative
    lifetime every later [k in cache] is false and [cache[k]] raises
    [KeyError], whatever else was called in between short of setting [k]
    again. *)
Theorem negative_ttl_never_visible {K V} `{EqDecision K}
    (clock : nat -> Q) (n : nat) (c : Cache K V) (k : K) (v : V)
    (ttl : option Z) (ops : list (CacheOp K V)) :
  monotone clock ->
  forallb (fun op => negb (writes_key k op)) ops = true ->
  (ttl_of c ttl < 0)%Z ->
  let s2 := (run_ops clock ops (set clock k v ttl (n, c)).2).2 in
  (__contains__ clock k s2).1 = Ok false
  /\ (__getitem__ clock k s2).1 = Raise KeyError.
Proof.
  intros Hmono Hops Hneg. cbv zeta. rewrite set_eq. cbn [snd].
  destruct (run_ops clock ops _) as [r [n2 c2]] eqn:Hrun.
  apply (evolves_run_ops clock k) in Hrun as [-> (Hle & _ & Hk)]; [| done].
  cbn [fst snd _store] in *. rewrite dict_get_set_eq in Hk.
  destruct Hk as [Hk | (v' & e' & m & [= <- <-] & Hnone & Hm & Hlt)].
  - assert (clock n + inject_Z (ttl_of c ttl) < clock n2) as Hlt.
    { assert (clock n <= clock n2) by (apply Hmono; lia).
      rewrite Zlt_Qlt in Hneg. change (inject_Z 0) with 0 in Hneg. lra. }
    apply Qgt_bool_true in Hlt.
    by rewrite (contains_present _ _ _ _ _ _ Hk),
      (getitem_present _ _ _ _ _ _ Hk), Hlt.
  - by rewrite (contains_absent _ _ _ _ Hnone), (getitem_absent _ _ _ _ Hnone).
Qed.

Lemma negative_ttl_never_visible_witness :
  (__contains__ clock_at_5 "k"
     (run_ops clock_at_5 [] (set clock_at_5 "k" true (Some (-1)%Z)
                               (0%nat, cache_5_9)).2).2).1 = Ok false
  /\ (__getitem__ clock_at_5 "k"
        (run_ops clock_at_5 [] (set clock_at_5 "k" true (Some (-1)%Z)
                                  (0%nat, cache_5_9)).2).2).1 = Raise KeyError.
Proof.
  apply (negative_ttl_never_visible clock_at_5 0 cache_5_9 "k" true
           (Some (-1)%Z) []).
  - intros i j _. apply Qle_refl.
  - reflexivity.
  - reflexivity.
Defined.

(** X4.  [iter(cache)] and [len(cache)] show no expired entry: when the
    clock reads [now] all through the implied sweep, [__iter__] gives the
    keys whose entries are not past their expiry at [now], in insertion
    order, [__len__] gives their number, and both leave the swept cache. *)
Theorem iter_len_show_live_entries {K V} `{EqDecision K}
    (clock : nat -> Q) (n : nat) (c : Cache K V) (now : Q) :
  (forall i, (i < length (_store c))%nat -> clock (n + i)%nat == now) ->
  let live_keys := filter (fun k => live now (_store c) k) (dict_keys (_store c)) in
  exists c',
    __iter__ clock (n, c) = (Ok live_keys, ((n + length (_store c))%nat, c'))
    /\ __len__ clock (n, c)
       = (Ok (length live_keys), ((n + length (_store c))%nat, c'))
    /\ dict_keys (_store c') = live_keys
    /\ forall k v e, dict_get k (_store c') = Some (v, e) ->
                     dict_get k (_store c) = Some (v, e) /\ now <= e.
Proof.
  intros Hnow. cbv zeta.
  destruct (cleanup_keys clock n c now Hnow) as (c' & Hrun & _ & Hkeys & Hget).
  exists c'. unfold __iter__, __len__, bind, get_state, ret. rewrite Hrun.
  unfold store_of. cbn [snd]. rewrite Hkeys. split_and!; [done | | done |].
  - rewrite <- Hkeys. unfold dict_keys. by rewrite length_fmap.
  - intros k v e Hg. rewrite Hget in Hg. unfold live in Hg.
    destruct (dict_get k (_store c)) as [[v0 e0] |]; [| done].
    destruct (Qgt_bool now e0) eqn:E; [done |].
    injection Hg as <- <-. split; [done | by apply Qgt_bool_false].
Qed.

Lemma iter_len_show_live_entries_witness :
  exists c',
    __iter__ (fun _ => 7) (0%nat, cache_jk) = (Ok ["j"; "m"], (3%nat, c'))
    /\ __len__ (fun _ => 7) (0%nat, cache_jk) = (Ok 2%nat, (3%nat, c')).
Proof.
  destruct (iter_len_show_live_entries (fun _ => 7) 0 cache_jk 7)
    as (c' & Hiter & Hlen & _).
  - intros i _. reflexivity.
  - exists c'. split; [exact Hiter | exact Hlen].
Defined.

(** X5.  A sweep keeps what survives in its order, and sweeping again
    without the clock moving changes nothing: when the clock reads [now]
    throughout both sweeps, the keys after the first are the keys not past
    their expiry at [now], in insertion order, and the second sweep leaves
    that cache as it is. *)
Theorem cleanup_twice_is_cleanup_once {K V} `{EqDecision K}
    (clock : nat -> Q) (n : nat) (c : Cache K V) (now : Q) :
  (forall i, (i < 2 * length (_store c))%nat -> clock (n + i)%nat == now) ->
  exists c',
    cleanup clock (n, c) = (Ok tt, ((n + length (_store c))%nat, c'))
    /\ dict_keys (_store c')
       = filter (fun k => live now (_store c) k) (dict_keys (_store c))
    /\ cleanup clock ((n + length (_store c))%nat, c')
       = (Ok tt, ((n + length (_store c) + length (_store c'))%nat, c')).
Proof.
  intros Hnow.
  destruct (cleanup_keys clock n c now) as (c' & Hrun & Httl & Hkeys & Hget).
  { intros i Hi. apply Hnow. lia. }
  exists c'. split_and!; [done | done |].
  assert (length (_store c') <= length (_store c))%nat as Hlen.
  { rewrite <- (length_fmap fst (_store c')), <- (length_fmap fst (_store c)).
    change (fst <$> _store c') with (dict_keys (_store c')). rewrite Hkeys.
    apply length_filter. }
  destruct (cleanup_keys clock (n + length (_store c)) c' now)
    as (c'' & Hrun' & Httl' & Hkeys' & Hget').
  { intros i Hi. rewrite <- Nat.add_assoc. apply Hnow. lia. }
  rewrite Hrun'. do 2 f_equal.
  assert (forall k, k ∈ dict_keys (_store c') -> live now (_store c') k) as Hl.
  { intros k Hk. rewrite Hkeys in Hk.
    apply list_elem_of_filter in Hk as [Hk _].
    unfold live in Hk |- *. rewrite Hget. unfold live.
    destruct (dict_get k (_store c)) as [[v e] |] eqn:Hg; [| done].
    apply Is_true_true in Hk. rewrite Hk. by apply Is_true_true. }
  revert Hrun'. unfold cleanup, bind, get_state. unfold store_of at 1.
  cbn [snd].
  destruct (expired_keys_spec clock (dict_keys (_store c'))
              (n + length (_store c)) c') as (xs & Hxs & Hin).
  { intros k. apply dict_get_keys. }
  rewrite Hxs, for_each_pop.
  assert (xs = []) as ->.
  { apply elem_of_nil_inv. intros k Hk.
    apply Hin in Hk as (i & v & e & Hi & Hg & Hlt).
    assert (k ∈ dict_keys (_store c')) as Hk'
      by (apply list_elem_of_lookup; eauto).
    apply Hl in Hk'. unfold live in Hk'. rewrite Hg in Hk'.
    apply Is_true_true, negb_true_iff, Qgt_bool_false in Hk'.
    rewrite <- Nat.add_assoc, Hnow in Hlt; [lra |].
    apply lookup_lt_Some in Hi. unfold dict_keys in Hi.
    rewrite length_fmap in Hi. lia. }
  simpl. intros [= _ <-]. by destruct c'.
Qed.

Lemma cleanup_twice_is_cleanup_once_witness :
  exists c',
    cleanup clock_at_5 (0%nat, cache_jk) = (Ok tt, (3%nat, c'))
    /\ dict_keys (_store c') = ["j"; "k"; "m"]
    /\ cleanup clock_at_5 (3%nat, c')
       = (Ok tt, ((0 + 3 + length (_store c'))%nat, c')).
Proof.
  destruct (cleanup_twice_is_cleanup_once clock_at_5 0 cache_jk 5)
    as (c' & Hfirst & Hkeys & Hsecond).
  - intros i _. reflexivity.
  - exists c'. split_and!; [exact Hfirst | | exact Hsecond].
    rewrite Hkeys. vm_compute. reflexivity.
Defined.

(** X6.  After a successful [del cache[k]] the key is gone for every read,
    at no cost of a clock reading: [k in cache] is false, [cache.get(k,
    default)] gives [default], a second [del cache[k]] raises [KeyError],
    and none of them changes the cache again; the other keys keep their
    entries and their order. *)
Theorem delitem_then_absent {K V} `{EqDecision K}
    (clock : nat -> Q) (n : nat) (c : Cache K V) (k : K) (default : option V) :
  is_Some (dict_get k (_store c)) ->
  exists s1,
    __delitem__ k (n, c) = (Ok tt, s1)
    /\ s1.1 = n
    /\ __contains__ clock k s1 = (Ok false, s1)
    /\ get clock k default s1 = (Ok default, s1)
    /\ __delitem__ k s1 = (Raise KeyError, s1)
    /\ dict_keys (_store s1.2) = filter (fun k' => k' <> k) (dict_keys (_store c))
    /\ forall k', k' <> k -> dict_get k' (_store s1.2) = dict_get k' (_store c).
Proof.
  intros Hsome. eexists. split.
  { unfold __delitem__, bind, get_state, modify, store_of. cbn [snd].
    rewrite (proj2 (dict_mem_true _ _) Hsome). reflexivity. }
  assert (dict_get k (dict_pop k (_store c)) = None) as Hnone
    by apply dict_get_pop_eq.
  unfold with_store. cbn [fst snd].
  split_and!.
  - done.
  - rewrite contains_absent by done. cbn. by rewrite dict_pop_absent.
  - rewrite get_eq, getitem_absent by done. cbn. by rewrite dict_pop_absent.
  - unfold __delitem__, bind, get_state, raise, store_of. cbn [snd _store].
    by rewrite (proj2 (dict_mem_false _ _) Hnone).
  - apply dict_keys_pop.
  - intros k' Hne. cbn. by apply dict_get_pop_ne.
Qed.

Lemma delitem_then_absent_witness :
  exists s1,
    __delitem__ "k" (0%nat, cache_jk) = (Ok tt, s1)
    /\ s1.1 = 0%nat
    /\ __contains__ clock5 "k" s1 = (Ok false, s1)
    /\ get clock5 "k" (Some false) s1 = (Ok (Some false), s1)
    /\ __delitem__ "k" s1 = (Raise KeyError, s1)
    /\ dict_keys (_store s1.2)
       = filter (fun k' => k' <> "k") (dict_keys (_store cache_jk))
    /\ forall k', k' <> "k" ->
         dict_get k' (_store s1.2) = dict_get k' (_store cache_jk).
Proof.
  apply (delitem_then_absent clock5 0 cache_jk "k" (Some false)).
  by eexists.
Defined.

(** * Further properties of the poller *)

Lemma scan_frame_refl w : scan_frame w w.
Proof. split_and!; [done | done | done |]. exists []. by rewrite app_nil_r. Qed.

Lemma scan_frame_trans w1 w2 w3 :
  scan_frame w1 w2 -> scan_frame w2 w3 -> scan_frame w1 w3.
Proof.
  intros (Hw1 & Ho1 & Hf1 & evs1 & Ht1 & He1) (Hw2 & Ho2 & Hf2 & evs2 & Ht2 & He2).
  split_and!; [congruence | congruence | by etrans |].
  exists (evs1 ++ evs2). rewrite Ht2, Ht1, <- app_assoc.
  split; [done |]. rewrite forallb_app. by rewrite He1, He2.
Qed.

Lemma scan_frame_cache w c n : scan_frame w (set_cache_ticks c n w).
Proof. split_and!; [done | done | done |]. exists []. by rewrite app_nil_r. Qed.

Section ScanFrame.
Variable cfg : Config.
Variable env : Env.
Implicit Types (w : World) (txid : string).

Lemma fetch_and_match_frame txid w w' :
  fetch_and_match cfg env txid w = (Ok tt, w') -> scan_frame w w'.
Proof.
  unfold fetch_and_match, print, bind, try_except, get_state, modify, ret.
  rewrite rpc_call_eq.
  destruct (rpc_outcome (env_getrawtransaction env (w_rpcs w) txid))
    as [raw_tx | e].
  - cbn [watched_outputs emit incr_rpcs].
    destruct (_tx_spends_watched_outputs (watched_outputs w) raw_tx).
    + rewrite dump_eq. cbv zeta.
      destruct (env_write env _) as [e |]; intros [= <-];
        (split_and!; [done | done | cbn | ]).
      * done.
      * eexists [_; _]. cbn. rewrite <- !app_assoc. by split.
      * rewrite dom_insert_L. set_solver.
      * eexists [_; _; _]. cbn. rewrite <- !app_assoc. by split.
    + intros [= <-]. split_and!; [done | done | done |].
      eexists [_]. by split.
  - intros [= <-]. split_and!; [done | done | done |].
    eexists [_; _]. cbn. rewrite <- !app_assoc. by split.
Qed.

Lemma process_txid_frame txid w r w' :
  process_txid cfg env txid w = (r, w') -> scan_frame w w'.
Proof.
  destruct (contains_total env txid (w_ticks w) (cache w)) as (b & n & c & Hc).
  destruct b.
  - rewrite (process_txid_seen _ _ _ _ _ _ Hc). intros [= <- <-].
    apply scan_frame_cache.
  - destruct (process_txid_unseen cfg env _ _ _ _ Hc)
      as (w2 & evs & -> & Hfm & _).
    intros [= <- <-].
    eapply scan_frame_trans; [apply (scan_frame_cache w c n) |].
    eapply scan_frame_trans; [by eapply fetch_and_match_frame |].
    apply scan_frame_cache.
Qed.

Lemma for_each_process_frame (l : list string) w r w' :
  for_each l (process_txid cfg env) w = (r, w') -> scan_frame w w'.
Proof.
  revert w. induction l as [| x l IH]; intros w.
  - intros [= <- <-]. apply scan_frame_refl.
  - simpl. unfold bind.
    destruct (process_txid_any cfg env x w) as (w1 & evs1 & Hx & _).
    rewrite Hx. intros Hl.
    eapply scan_frame_trans; [by eapply process_txid_frame | by apply IH].
Qed.

Lemma process_mempool_frame w r w' :
  _process_mempool cfg env w = (r, w') -> scan_frame w w'.
Proof.
  intros Hrun%process_mempool_cases. cbv zeta in Hrun.
  assert (scan_frame w (emit (EvRpc "getrawmempool" []) (incr_rpcs w))) as H0.
  { split_and!; [done | done | done |]. eexists [_]. by split. }
  destruct (rpc_outcome _) as [txids | e].
  - destruct Hrun as (_ & wb & Hl & Hc).
    eapply scan_frame_trans; [exact H0 |].
    eapply scan_frame_trans; [by eapply for_each_process_frame |].
    revert Hc. unfold on_cache.
    destruct (cleanup _ _) as [r0 [n c]]. intros [= _ <-].
    apply scan_frame_cache.
  - by destruct Hrun as [_ ->].
Qed.

End ScanFrame.

(** X7.  A candidate the cache holds, not past its expiry, costs one reading
    of the clock and nothing else: no request is posted, no file written,
    nothing printed, and the cache is as it was. *)
Theorem seen_candidate_is_skipped
    (cfg : Config) (env : Env) (txid : string) (w : World) (v : bool) (e : Q) :
  cache_entry w txid = Some (v, e) ->
  env_clock env (w_ticks w) <= e ->
  process_txid cfg env txid w
  = (Ok tt, set_cache_ticks (cache w) (S (w_ticks w)) w).
Proof.
  intros Hg Hle. apply process_txid_seen.
  rewrite (contains_present _ _ _ _ _ _ Hg).
  apply Qgt_bool_false in Hle. by rewrite Hle.
Qed.

Lemma seen_candidate_is_skipped_witness :
  process_txid cfg0 env_scenario "txA" world1
  = (Ok tt, set_cache_ticks (cache world1) (S (w_ticks world1)) world1).
Proof.
  apply (seen_candidate_is_skipped cfg0 env_scenario "txA" world1 true 3600).
  - vm_compute. reflexivity.
  - vm_compute. discriminate.
Defined.

(** X8.  A candidate the cache does not report present, whose detail the
    node returns, is dumped exactly when it matches.  Without a match only
    the request is added to the trace and no file changes.  With a match,
    and the write going through, the record is stored under its dump path
    and the write and its message follow the request.  Either way the
    candidate is then in the cache. *)
Theorem candidate_dumped_iff_match
    (cfg : Config) (env : Env) (txid : string) (w : World) (tx : Tx) :
  (__contains__ (env_clock env) txid (w_ticks w, cache w)).1 = Ok false ->
  rpc_outcome (env_getrawtransaction env (w_rpcs w) txid) = Ok tx ->
  exists w',
    process_txid cfg env txid w = (Ok tt, w')
    /\ is_Some (cache_entry w' txid)
    /\ (_tx_spends_watched_outputs (watched_outputs w) tx = false ->
        w_files w' = w_files w
        /\ w_writes w' = w_writes w
        /\ w_trace w' = w_trace w ++ [EvRpc "getrawtransaction" [txid; "True"]])
    /\ (_tx_spends_watched_outputs (watched_outputs w) tx = true ->
        env_write env (w_writes w) = None ->
        w_files w' = <[dump_path cfg tx := tx]> (w_files w)
        /\ w_trace w'
           = w_trace w ++ [EvRpc "getrawtransaction" [txid; "True"];
                           EvWrite (dump_path cfg tx) tx;
                           EvPrint (MsgDumped (default "unknown_txid" (tx_txid tx))
                                              (dump_path cfg tx))]).
Proof.
  intros Hunseen Hrpc.
  destruct (__contains__ (env_clock env) txid (w_ticks w, cache w))
    as [r [n c]] eqn:Hc.
  simpl in Hunseen. subst r.
  destruct (process_txid_unseen cfg env _ _ _ _ Hc)
    as (w2 & evs & Heq & Hfm & _).
  eexists. split; [exact Heq |]. split.
  { unfold cache_entry. cbn. rewrite dict_get_set_eq. eauto. }
  revert Hfm. unfold fetch_and_match, print, bind, try_except, get_state,
    modify, ret.
  rewrite rpc_call_eq. cbn [w_rpcs set_cache_ticks]. rewrite Hrpc.
  cbn [watched_outputs emit incr_rpcs set_cache_ticks].
  destruct (_tx_spends_watched_outputs (watched_outputs w) tx).
  - rewrite dump_eq. cbv zeta.
    cbn [w_writes emit incr_rpcs set_cache_ticks].
    split; [done |]. intros _ Hwrite. rewrite Hwrite in Hfm.
    injection Hfm as <-. cbn. rewrite <- !app_assoc. done.
  - injection 1 as <-. split; [| done]. intros _. by cbn.
Qed.

Lemma candidate_dumped_iff_match_witness :
  exists w',
    process_txid cfg0 env_scenario "txA"
      (set_watched_outputs {[ ("abc123", 0%Z) ]} world0) = (Ok tt, w')
    /\ w_files w' = {[ "dumped_txs/txA.json" := txA ]}.
Proof.
  destruct (candidate_dumped_iff_match cfg0 env_scenario "txA"
              (set_watched_outputs {[ ("abc123", 0%Z) ]} world0) txA)
    as (w' & Hrun & _ & _ & Hmatch).
  - reflexivity.
  - reflexivity.
  - exists w'. split; [exact Hrun |].
    destruct Hmatch as [-> _]; [vm_compute; reflexivity | reflexivity |].
    vm_compute. reflexivity.
Defined.



Section CycleEq.
Variable cfg : Config.
Variable env : Env.
Implicit Types (w : World).

Lemma run_cycle_eq w :
  run_cycle cfg env w
  = let w1 := emit (EvOpen (outputs_file cfg)) (incr_opens w) in
    match loaded env w with
    | Raise e => (Raise e, w1)
    | Ok wo =>
        let scan :=
          _process_mempool cfg env
            (emit (EvPrint (MsgWatching (size wo))) (set_watched_outputs wo w1)) in
        (Ok tt,
         emit (EvSleep (fetch_interval cfg))
           (emit (EvPrint (MsgSleeping (fetch_interval cfg)))
              match scan.1 with
              | Ok _ => scan.2
              | Raise e => emit (EvPrint (MsgMainLoopError e)) scan.2
              end))
    end.
Proof.
  unfold run_cycle, print, time_sleep, bind, try_except, modify, ret, loaded.
  rewrite load_eq. cbv zeta.
  destruct (match env_open env (w_opens w) with
            | Ok lines => load_lines ∅ lines
            | Raise e => Raise e
            end) as [wo | e]; [| done].
  by destruct (_process_mempool cfg env _) as [[[] | e3] w3].
Qed.




Lemma run_cycle_files w r w' :
  run_cycle cfg env w = (r, w') -> dom (w_files w) ⊆ dom (w_files w').
Proof.
  rewrite run_cycle_eq. cbv zeta.
  destruct (loaded env w) as [wo | e]; [| by intros [= <- <-]].
  destruct (_process_mempool cfg env _) as [r3 w3] eqn:Hpm.
  apply process_mempool_frame in Hpm as (_ & _ & Hf & _).
  intros [= <- <-]. cbn [fst snd]. by destruct r3.
Qed.

End CycleEq.







(** X13.  A cycle asks for the detail of listed candidates only: for an
    identifier that the listing does not hold, or when there is no listing,
    no [getrawtransaction] is posted. *)
Theorem cycle_fetches_only_listed
    (cfg : Config) (env : Env) (w : World) (r : Res unit) (w' : World)
    (id : string) :
  (forall l, rpc_outcome (env_getrawmempool env (w_rpcs w)) = Ok l -> id ∉ l) ->
  run_cycle cfg env w = (r, w') ->
  fetches id (w_trace w') = fetches id (w_trace w).
Proof.
  intros Hnot. rewrite run_cycle_eq. cbv zeta.
  destruct (loaded env w) as [wo | e].
  - destruct (_process_mempool cfg env _) as [r3 w3] eqn:Hpm.
    intros [= <- <-]. cbn [fst snd].
    apply process_mempool_cases in Hpm. cbv zeta in Hpm.
    cbn [w_rpcs emit set_watched_outputs incr_opens] in Hpm.
    assert (fetches id (w_trace w3) = fetches id (w_trace w)) as H3.
    { destruct (rpc_outcome (env_getrawmempool env (w_rpcs w))) as [l | e] eqn:Hl.
      - destruct Hpm as (_ & wb & Hfor & Hclean).
        match type of Hfor with
        | for_each _ _ ?wa = _ =>
            destruct (for_each_process_absent cfg env id l wa (Hnot l eq_refl))
              as (wb' & Hfor' & Hleave)
        end.
        assert (wb' = wb) as -> by congruence.
        destruct (cleanup_world env wb) as (wc & Hclean' & Htr & _).
        assert (wc = w3) as -> by congruence.
        rewrite Htr, (leaves_alone_fetches env _ _ _ Hleave).
        cbn [w_trace emit set_watched_outputs incr_rpcs incr_opens].
        rewrite !fetches_app. cbn [fetches]. rewrite is_fetch_listing.
        cbn. lia.
      - destruct Hpm as [_ ->].
        cbn [w_trace emit set_watched_outputs incr_rpcs incr_opens].
        rewrite !fetches_app. cbn [fetches]. rewrite is_fetch_listing.
        cbn. lia. }
    destruct r3 as [[] | e]; cbn; rewrite !fetches_app, H3; cbn; lia.
  - intros [= <- <-]. cbn. rewrite fetches_app. cbn. lia.
Qed.

Lemma cycle_fetches_only_listed_witness :
  fetches "txC" (w_trace world1) = fetches "txC" (w_trace world0).
Proof.
  apply (cycle_fetches_only_listed cfg0 env_scenario world0 (Ok tt) world1 "txC").
  - intros l Hl. vm_compute in Hl. injection Hl as <-.
    apply (bool_decide_unpack _). vm_compute. reflexivity.
  - vm_compute. reflexivity.
Defined.

(** X14.  The poller never removes a dump: whatever happens in any number of
    cycles, every file that was in the dump folder is still there (its
    content may have been overwritten by a later dump of the same name). *)
Theorem dumps_are_never_deleted
    (cfg : Config) (env : Env) (n : nat) (w : World) :
  dom (w_files w) ⊆ dom (w_files (run cfg env n w).2).
Proof.
  revert w. induction n as [| n IH]; intros w; [done |].
  simpl. unfold bind.
  destruct (run_cycle cfg env w) as [[[] | e] w'] eqn:Hc.
  - etrans; [by eapply run_cycle_files | apply IH].
  - by eapply run_cycle_files.
Qed.

(** * Invariants of a running poller *)

Section Marks.
Variable cfg : Config.
Variable env : Env.
Implicit Types (w : World).

(** Steps that leave the cache alone and only add to the trace. *)
Lemma marks_only_mono w w' :
  marks_only cfg env w ->
  cache w' = cache w ->
  (w_ticks w <= w_ticks w')%nat ->
  (exists evs, w_trace w' = w_trace w ++ evs) ->
  marks_only cfg env w'.
Proof.
  intros [Httl Hm] Hc Ht [evs Htr]. unfold marks_only, cache_entry in *.
  rewrite Hc. split; [done |]. intros txid v e Hg.
  destruct (Hm txid v e Hg) as (-> & Hf & m & Hlt & ->).
  split_and!; [done | rewrite Htr, fetches_app; lia |].
  exists m. split; [lia | done].
Qed.

Lemma marks_only_emit w ev : marks_only cfg env w -> marks_only cfg env (emit ev w).
Proof. intros H. eapply marks_only_mono; eauto; cbn; eauto. Qed.

(** Steps that at most evict entries. *)
Lemma marks_only_evicting w w' :
  marks_only cfg env w ->
  (forall id, leaves_alone (env_clock env) id w w') ->
  marks_only cfg env w'.
Proof.
  intros [Httl Hm] Hleave. split.
  - destruct (Hleave "") as ((_ & Ht & _) & _). cbn in Ht. congruence.
  - intros txid v e Hg. specialize (Hleave txid).
    pose proof (leaves_alone_ticks _ _ _ _ Hleave) as Hticks.
    pose proof (leaves_alone_fetches _ _ _ _ Hleave) as Hf.
    destruct (leaves_alone_entry _ _ _ _ Hleave) as [Hsame | Hnone];
      [| congruence].
    rewrite Hsame in Hg. destruct (Hm txid v e Hg) as (-> & Hf' & m & Hlt & ->).
    split_and!; [done | lia |]. exists m. split; [lia | done].
Qed.

Lemma process_txid_marks txid w w' :
  marks_only cfg env w ->
  process_txid cfg env txid w = (Ok tt, w') ->
  marks_only cfg env w'.
Proof.
  intros Hinv Hrun.
  destruct (contains_total env txid (w_ticks w) (cache w)) as (b & n & c & Hc).
  destruct b.
  - rewrite (process_txid_seen _ _ _ _ _ _ Hc) in Hrun. injection Hrun as <-.
    apply (marks_only_evicting w); [done |]. intros id.
    split_and!; [by eapply evolves_contains | done |].
    exists []. by rewrite app_nil_r.
  - destruct (process_txid_unseen cfg env _ _ _ _ Hc)
      as (w2 & evs & Heq & _ & _ & Htr & _).
    rewrite Heq in Hrun. injection Hrun as <-.
    destruct Hinv as [Httl Hm]. split.
    + cbn. pose proof (evolves_contains (env_clock env) txid _ _ _ _ Hc)
        as (_ & Ht & _). cbn in Ht. congruence.
    + intros id v e. unfold cache_entry. cbn.
      pose proof (evolves_contains (env_clock env) id _ _ _ _ Hc)
        as (Hle & Ht & Hk). cbn [fst snd] in Hle, Ht, Hk.
      destruct (decide (txid = id)) as [-> | Hne].
      * rewrite dict_get_set_eq. intros [= <- <-].
        split_and!; [done | |].
        -- rewrite Htr, fetches_app. cbn [fetches].
           rewrite (proj2 (is_fetch_true id _)) by done. lia.
        -- exists n. split; [lia |]. by rewrite Ht, Httl.
      * rewrite dict_get_set_ne by done. intros Hg.
        assert (dict_get id (_store (cache w)) = Some (v, e)) as Hg0.
        { destruct Hk as [Hk | (? & ? & ? & _ & Hnone & _)]; congruence. }
        destruct (Hm id v e Hg0) as (-> & Hf & m & Hlt & ->).
        split_and!; [done | rewrite Htr, fetches_app; lia |].
        exists m. split; [lia | done].
Qed.

Lemma for_each_process_marks (l : list string) w w' :
  marks_only cfg env w ->
  for_each l (process_txid cfg env) w = (Ok tt, w') ->
  marks_only cfg env w'.
Proof.
  revert w. induction l as [| x l IH]; intros w Hinv.
  - by intros [= <-].
  - simpl. unfold bind.
    destruct (process_txid_any cfg env x w) as (w1 & evs1 & Hx & _).
    rewrite Hx. apply IH. by eapply process_txid_marks.
Qed.

Lemma process_mempool_marks w r w' :
  marks_only cfg env w ->
  _process_mempool cfg env w = (r, w') ->
  marks_only cfg env w'.
Proof.
  intros Hinv Hrun%process_mempool_cases. cbv zeta in Hrun.
  apply (marks_only_emit _ (EvRpc "getrawmempool" [])) in Hinv.
  assert (marks_only cfg env (emit (EvRpc "getrawmempool" []) (incr_rpcs w)))
    as Hinv' by exact Hinv.
  destruct (rpc_outcome _) as [txids | e].
  - destruct Hrun as (_ & wb & Hl & Hc).
    apply for_each_process_marks in Hl; [| done].
    destruct (cleanup_world env wb) as (wc & Hc' & _ & _ & Hleave).
    assert (wc = w') as -> by congruence.
    eapply marks_only_evicting; [exact Hl | exact Hleave].
  - destruct Hrun as [_ ->]. exact Hinv'.
Qed.

End Marks.

Section MarksRun.
Variable cfg : Config.
Variable env : Env.
Implicit Types (w : World).

Lemma run_cycle_marks w r w' :
  marks_only cfg env w ->
  run_cycle cfg env w = (r, w') ->
  marks_only cfg env w'.
Proof.
  intros Hinv Hrun%run_cycle_cases. cbv zeta in Hrun.
  destruct (match env_open env (w_opens w) with
            | Ok lines => load_lines ∅ lines
            | Raise e => Raise e
            end) as [wo | e].
  - destruct Hrun as (_ & r3 & w3 & Hpm & (Hc & Ht & evs & Htr & _) & _).
    apply (process_mempool_marks cfg env) in Hpm.
    + eapply marks_only_mono; [exact Hpm | done | lia | eauto].
    + eapply marks_only_mono; [exact Hinv | done | cbn; lia |].
      eexists [_; _]. cbn. by rewrite <- app_assoc.
  - destruct Hrun as [_ ->]. by apply marks_only_emit.
Qed.

Lemma run_marks n w :
  marks_only cfg env w -> marks_only cfg env (run cfg env n w).2.
Proof.
  revert w. induction n as [| n IH]; intros w Hinv; [done |].
  simpl. unfold bind.
  destruct (run_cycle cfg env w) as [[[] | e] w'] eqn:Hc.
  - apply IH. by eapply run_cycle_marks.
  - by eapply run_cycle_marks.
Qed.

Lemma init_eq w :
  __init__ cfg env w
  = let w1 := emit (EvOpen (outputs_file cfg)) (incr_opens w) in
    match loaded env w with
    | Raise e => (Raise e, w1)
    | Ok wo =>
        let w2 := emit (EvMakedirs (dump_folder cfg)) (set_watched_outputs wo w1) in
        match env_makedirs env with
        | Some e => (Raise e, w2)
        | None => (Ok tt, w2)
        end
    end.
Proof.
  unfold __init__, bind, modify, raise, ret, loaded. rewrite load_eq. cbv zeta.
  destruct (match env_open env (w_opens w) with
            | Ok lines => load_lines ∅ lines
            | Raise e => Raise e
            end) as [wo | e]; [| done].
  by destruct (env_makedirs env).
Qed.

End MarksRun.

(** X15.  The cache of a running poller holds nothing but marks.  From the
    construction on and after any number of cycles, its default lifetime is
    the configured [cache_ttl], and every entry has the value [True], belongs
    to an identifier whose detail has been requested at least once, and
    expires [cache_ttl] after a reading of the clock taken before. *)
Theorem cache_holds_only_marks
    (cfg : Config) (env : Env) (n : nat) (files : gmap string Tx) :
  marks_only cfg env (main cfg env n (fresh_world cfg files)).2.
Proof.
  assert (marks_only cfg env (fresh_world cfg files)) as H0.
  { split; [done |]. intros txid v e Hg. discriminate Hg. }
  unfold main, bind. rewrite init_eq. cbv zeta.
  destruct (loaded env (fresh_world cfg files)) as [wo | e].
  - assert (marks_only cfg env
              (emit (EvMakedirs (dump_folder cfg))
                 (set_watched_outputs wo
                    (emit (EvOpen (outputs_file cfg))
                       (incr_opens (fresh_world cfg files)))))) as H1.
    { eapply marks_only_mono; [exact H0 | done | cbn; lia |].
      eexists [_; _]. cbn. reflexivity. }
    destruct (env_makedirs env); [exact H1 |]. by apply run_marks.
  - by apply marks_only_emit.
Qed.

(** X16.  An error at construction stops everything.  If the watch-list
    does not load, [main] raises that error having done nothing but try to
    open the file: the dump folder is not created and no request is posted.
    If the dump folder cannot be created, [main] raises that error with the
    watch-list loaded and no cycle run.  Otherwise the loop starts from an
    empty cache with the loaded watch-list. *)
Theorem construction_errors_stop_main
    (cfg : Config) (env : Env) (n : nat) (files : gmap string Tx) :
  let w0 := fresh_world cfg files in
  let opened := emit (EvOpen (outputs_file cfg)) (incr_opens w0) in
  (forall e, loaded env w0 = Raise e ->
     main cfg env n w0 = (Raise e, opened))
  /\ (forall wo,
        loaded env w0 = Ok wo ->
        let built := emit (EvMakedirs (dump_folder cfg))
                       (set_watched_outputs wo opened) in
        (forall e, env_makedirs env = Some e ->
           main cfg env n w0 = (Raise e, built))
        /\ (env_makedirs env = None ->
            main cfg env n w0 = run cfg env n built
            /\ _store (cache built) = []
            /\ watched_outputs built = wo)).
Proof.
  cbv zeta. split.
  - intros e He. unfold main, bind. by rewrite init_eq, He.
  - intros wo Hwo. split.
    + intros e He. unfold main, bind. by rewrite init_eq, Hwo, He.
    + intros He. unfold main, bind. by rewrite init_eq, Hwo, He.
Qed.

Lemma construction_errors_stop_main_witness :
  main cfg0 env_no_folder 4 (fresh_world cfg0 ∅)
  = (Raise OSError,
     emit (EvMakedirs "dumped_txs")
       (set_watched_outputs {[ ("abc123", 0%Z) ]}
          (emit (EvOpen "outputs.txt") (incr_opens (fresh_world cfg0 ∅))))).
Proof.
  assert (loaded env_no_folder (fresh_world cfg0 ∅) = Ok {[ ("abc123", 0%Z) ]})
    as Hload by (vm_compute; reflexivity).
  destruct (construction_errors_stop_main cfg0 env_no_folder 4 ∅) as [_ Hbuilt].
  destruct (Hbuilt _ Hload) as [Hfail _].
  exact (Hfail OSError eq_refl).
Defined.

(** X17.  Matching composes over watch-lists: a transaction matches the
    union of two watch-lists exactly when it matches one of them.  Nothing
    matches the empty watch-list, and a record without inputs matches no
    watch-list. *)
Theorem match_distributes_over_union
    (watched1 watched2 : gset (string * Z)) (tx : Tx) :
  _tx_spends_watched_outputs (watched1 ∪ watched2) tx
  = _tx_spends_watched_outputs watched1 tx
    || _tx_spends_watched_outputs watched2 tx
  /\ _tx_spends_watched_outputs ∅ tx = false
  /\ (tx_vin tx = None \/ tx_vin tx = Some [] ->
      _tx_spends_watched_outputs watched1 tx = false).
Proof.
  unfold _tx_spends_watched_outputs. split_and!.
  - apply eq_true_iff_eq. rewrite orb_true_iff, !scan_inputs_true. split.
    + intros (vin & Hin & t & i & Ht & Hi & [H1 | H2]%elem_of_union);
        [left | right]; exists vin; (split; [done |]); by exists t, i.
    + intros [(vin & Hin & t & i & Ht & Hi & H) | (vin & Hin & t & i & Ht & Hi & H)];
        exists vin; (split; [done |]); exists t, i;
        (split_and!; [done | done |]); apply elem_of_union; eauto.
  - apply not_true_iff_false. rewrite scan_inputs_true.
    intros (vin & _ & t & i & _ & _ & H). by apply not_elem_of_empty in H.
  - by intros [-> | ->].
Qed.

Lemma match_distributes_over_union_witness :
  _tx_spends_watched_outputs {[ ("abc123", 0%Z) ]}
    (mkTx (Some "t") None []) = false.
Proof.
  apply (match_distributes_over_union {[ ("abc123", 0%Z) ]} ∅
           (mkTx (Some "t") None [])).
  by left.
Defined.

(** * Dump files and the watch-list file *)




Lemma absolute_app (a b : string) :
  a <> "" -> absolute (a +:+ b) = absolute a.
Proof. by destruct a. Qed.





Lemma parse_line_error line e : parse_line line = Raise e -> e = ValueError.
Proof.
  unfold parse_line.
  destruct (strip (list_ascii_of_string line)) as [| a l]; [done |].
  destruct (split_on ","%char (a :: l)) as [| txid [| idx [| ? ?]]];
    try (by intros [= <-]).
  destruct (py_int idx); [done | by intros [= <-]].
Qed.

Lemma load_lines_eq acc lines :
  load_lines acc lines
  = if forallb parses lines then Ok (acc ∪ parsed_pairs lines)
    else Raise ValueError.
Proof.
  revert acc. induction lines as [| line rest IH]; intros acc; simpl.
  - by rewrite (right_id_L ∅ (∪)).
  - unfold parses at 1.
    destruct (parse_line line) as [[p |] | e] eqn:Hp; simpl.
    + rewrite IH. destruct (forallb parses rest); [| done].
      by rewrite (assoc_L (∪)).
    + apply IH.
    + by rewrite (parse_line_error _ _ Hp).
Qed.

Lemma elem_of_parsed_pairs p lines :
  p ∈ parsed_pairs lines
  <-> exists line, line ∈ lines /\ parse_line line = Ok (Some p).
Proof.
  induction lines as [| line rest IH]; simpl.
  - split; [by intros ?%not_elem_of_empty | by intros (? & ?%elem_of_nil & _)].
  - destruct (parse_line line) as [[q |] | e] eqn:Hq.
    + rewrite elem_of_union, elem_of_singleton, IH. split.
      * intros [-> | (l & Hl & Hp)]; [exists line | exists l];
          (split; [| done]); [by left | by right].
      * intros (l & [-> | Hl]%elem_of_cons & Hp);
          [left; congruence | right; eauto].
    + rewrite IH. split.
      * intros (l & Hl & Hp). exists l. split; [by right | done].
      * intros (l & [-> | Hl]%elem_of_cons & Hp); [congruence | eauto].
    + rewrite IH. split.
      * intros (l & Hl & Hp). exists l. split; [by right | done].
      * intros (l & [-> | Hl]%elem_of_cons & Hp); [congruence | eauto].
Qed.

Lemma forallb_parses lines :
  forallb parses lines = true <-> forall line, line ∈ lines -> parses line = true.
Proof.
  rewrite forallb_forall. split; intros H line Hl; apply H;
    by apply list_elem_of_In.
Qed.



(** X20.  The watch-list is a set of lines: two files that hold the same
    lines, in whatever order and however often repeated, load to the same
    result, the same set or the same error. *)
Theorem same_lines_same_watch_list
    (acc : gset (string * Z)) (lines lines' : list string) :
  (forall line, line ∈ lines <-> line ∈ lines') ->
  load_lines acc lines = load_lines acc lines'.
Proof.
  intros Hsame. rewrite !load_lines_eq.
  assert (forallb parses lines = forallb parses lines') as ->.
  { apply eq_true_iff_eq. rewrite !forallb_parses.
    split; intros H line Hl; apply H; by apply Hsame. }
  assert (parsed_pairs lines = parsed_pairs lines') as ->; [| done].
  apply leibniz_equiv. intros p.
  rewrite !elem_of_parsed_pairs.
  split; intros (line & Hl & Hp); exists line; (split; [by apply Hsame | done]).
Qed.

Lemma same_lines_same_watch_list_witness :
  load_lines ∅ ["b,2"; "a,1"; "b,2"] = load_lines ∅ ["a,1"; "b,2"].
Proof.
  apply (same_lines_same_watch_list ∅ ["b,2"; "a,1"; "b,2"] ["a,1"; "b,2"]).
  intros line. rewrite !elem_of_cons, !elem_of_nil. tauto.
Defined.

















